(** * Manufacturer Block Access helper for the bq40z50 gauge

    Shallow embedding of [bqcmd.h], [bqcmd.cpp] and [utility.cpp]: the
    command catalogue and its bit-field tables, the block write and block
    read over the two-wire bus, the byte-order reversal, the bit-field
    decoder and the command runner.

    C integers are [Z] with their wrap-around written out ([to_uint8],
    [to_uint32]).  The Arduino core and the Wire library are outside the
    repository; they are modelled by what the code observes of them: the
    serial port as the sequence of values printed, the clock as a
    millisecond counter advanced by [delay], the bus as the frames handed
    to it, the status codes it answers and the bytes the device supplies. *)

From Stdlib Require Import ZArith List String Ascii Bool Lia.
Import ListNotations.
Open Scope string_scope.
Open Scope list_scope.
Open Scope Z_scope.

(** ** Fixed-width integers *)

Definition to_uint8 (x : Z) : Z := x mod 256.
Definition to_uint32 (x : Z) : Z := x mod 4294967296.

(** Arduino's [lowByte(w)] is [(uint8_t) ((w) & 0xff)] and [highByte(w)]
    is [(uint8_t) ((w) >> 8)]. *)
Definition lowByte (w : Z) : Z := to_uint8 (Z.land w 0xff).
Definition highByte (w : Z) : Z := to_uint8 (Z.shiftr w 8).

(** [bitRead(value, bit)] is [(((value) >> (bit)) & 0x01)]. *)
Definition bitRead (value bit : Z) : Z := Z.land (Z.shiftr value bit) 1.

(** ** bqcmd.h: constants and data model *)

Definition MANUFACTURER_BLOCK_ACCESS_COMMAND : Z := 0x44.
Definition SOFTWAREWIRE_BUFSIZE : Z := 32.

Inductive DisplayFormat : Type :=
| FORMAT_DECIMAL
| FORMAT_HEX
| FORMAT_BINARY
| FORMAT_TEXT
| FORMAT_MIXED.

(** A [const char*] that the code tests against [NULL] before use is an
    [option string]; one that is used unchecked is a [string]. *)
Record BitFieldInfo : Type := mkBitFieldInfo {
  bitIndex : Z;
  label : string;
  description : option string;
  activeValue : string;
  inactiveValue : option string
}.

(** [access] points to a string literal; the pointer is represented by the
    literal it points to (see [same_literal]). *)
Record MBACommandInfo : Type := mkMBACommandInfo {
  cmd : Z;
  data : list Z;
  dataLength : Z;
  name : string;
  access : string;
  displayFormat : DisplayFormat;
  bitfields : option (list BitFieldInfo);
  bitfieldCount : Z;
  cmdDescription : string
}.

(** An initialiser [{ i, "l", "d", "a", "n" }] of a [BitFieldInfo]. *)
Definition bit (i : Z) (l d a n : string) : BitFieldInfo :=
  {| bitIndex := i; label := l; description := Some d;
     activeValue := a; inactiveValue := Some n |}.

(** [uint8_t data[8]] with a possibly shorter initialiser list: the
    remaining elements are zero. *)
Definition array8 (init : list Z) : list Z := firstn 8 (init ++ repeat 0 8).

Definition command (c : Z) (d : list Z) (len : Z) (n a : string)
    (f : DisplayFormat) (b : option (list BitFieldInfo)) (count : Z)
    (descr : string) : MBACommandInfo :=
  {| cmd := c; data := array8 d; dataLength := len; name := n; access := a;
     displayFormat := f; bitfields := b; bitfieldCount := count;
     cmdDescription := descr |}.

Definition safetyAlertBits : list BitFieldInfo :=
  [ bit  0 "CUV" "Cell Undervoltage" "Detected" "Not Detected"
  ; bit  1 "COV" "Cell Overvoltage" "Detected" "Not Detected"
  ; bit  2 "OCC1" "Overcurrent During Charge 1" "Detected" "Not Detected"
  ; bit  3 "OCC2" "Overcurrent During Charge 2" "Detected" "Not Detected"
  ; bit  4 "OCD1" "Overcurrent During Discharge 1" "Detected" "Not Detected"
  ; bit  5 "OCD2" "Overcurrent During Discharge 2" "Detected" "Not Detected"
  ; bit  6 "RSVD" "Reserved" "" ""
  ; bit  7 "AOLDL" "Overload During Discharge Latch" "Detected" "Not Detected"
  ; bit  8 "RSVD" "Reserved" "" ""
  ; bit  9 "ASCCL" "Short-Circuit During Charge Latch" "Detected" "Not Detected"
  ; bit 10 "RSVD" "Reserved" "" ""
  ; bit 11 "ASCDL" "Short-Circuit During Discharge Latch" "Detected" "Not Detected"
  ; bit 12 "OTC" "Overtemperature During Charge" "Detected" "Not Detected"
  ; bit 13 "OTD" "Overtemperature During Discharge" "Detected" "Not Detected"
  ; bit 14 "CUVC" "Cell Undervoltage Compensated" "Detected" "Not Detected"
  ; bit 15 "RSVD" "Reserved" "" ""
  ; bit 16 "OTF" "Overtemperature FET" "Detected" "Not Detected"
  ; bit 17 "RSVD" "Reserved" "" ""
  ; bit 18 "PTO" "Precharge Timeout" "Detected" "Not Detected"
  ; bit 19 "PTOS" "Precharge Timeout Suspend" "Detected" "Not Detected"
  ; bit 20 "CTO" "Charge Timeout" "Detected" "Not Detected"
  ; bit 21 "CTOS" "Charge Timeout Suspend" "Detected" "Not Detected"
  ; bit 22 "OC" "Overcharge" "Detected" "Not Detected"
  ; bit 23 "CHGC" "Overcharging Current" "Detected" "Not Detected"
  ; bit 24 "CHGV" "Overcharging Voltage" "Detected" "Not Detected"
  ; bit 25 "PCHGC" "Over-Precharge Current" "Detected" "Not Detected"
  ; bit 26 "UTC" "Undertemperature During Charge" "Detected" "Not Detected"
  ; bit 27 "UTD" "Undertemperature During Discharge" "Detected" "Not Detected"
  ; bit 28 "COVL" "Cell Overvoltage Latch" "Detected" "Not Detected"
  ; bit 29 "OCDL" "Overcurrent in Discharge" "Detected" "Not Detected"
  ; bit 30 "RSVD" "Reserved" "" ""
  ; bit 31 "RSVD" "Reserved" "" "" ].

Definition safetyStatusBits : list BitFieldInfo :=
  [ bit  0 "CUV" "Cell Undervoltage" "Detected" "Not Detected"
  ; bit  1 "COV" "Cell Overvoltage" "Detected" "Not Detected"
  ; bit  2 "OCC1" "Overcurrent During Charge 1" "Detected" "Not Detected"
  ; bit  3 "OCC2" "Overcurrent During Charge 2" "Detected" "Not Detected"
  ; bit  4 "OCD1" "Overcurrent During Discharge 1" "Detected" "Not Detected"
  ; bit  5 "OCD2" "Overcurrent During Discharge 2" "Detected" "Not Detected"
  ; bit  6 "AOLD" "Overload During Discharge" "Detected" "Not Detected"
  ; bit  7 "AOLDL" "Overload During Discharge Latch" "Detected" "Not Detected"
  ; bit  8 "ASCC" "Short-circuit During Charge" "Detected" "Not Detected"
  ; bit  9 "ASCCL" "Short-circuit During Charge Latch" "Detected" "Not Detected"
  ; bit 10 "ASCD" "Short-circuit During Discharge" "Detected" "Not Detected"
  ; bit 11 "ASCDL" "Short-circuit During Discharge Latch" "Detected" "Not Detected"
  ; bit 12 "OTC" "Overtemperature During Charge" "Detected" "Not Detected"
  ; bit 13 "OTD" "Overtemperature During Discharge" "Detected" "Not Detected"
  ; bit 14 "CUVC" "Cell Undervoltage Compensated" "Detected" "Not Detected"
  ; bit 15 "RSVD" "Reserved" "" ""
  ; bit 16 "OTF" "Overtemperature FET" "Detected" "Not Detected"
  ; bit 17 "RSVD" "Reserved" "" ""
  ; bit 18 "PTO" "Precharge Timeout" "Detected" "Not Detected"
  ; bit 19 "RSVD" "Reserved" "" ""
  ; bit 20 "CTO" "Charge Timeout" "Detected" "Not Detected"
  ; bit 21 "RSVD" "Reserved" "" ""
  ; bit 22 "OC" "Overcharge" "Detected" "Not Detected"
  ; bit 23 "CHGC" "Overcharging Current" "Detected" "Not Detected"
  ; bit 24 "CHGV" "Overcharging Voltage" "Detected" "Not Detected"
  ; bit 25 "PCHGC" "Over-Precharge Current" "Detected" "Not Detected"
  ; bit 26 "UTC" "Undertemperature During Charge" "Detected" "Not Detected"
  ; bit 27 "UTD" "Undertemperature During Discharge" "Detected" "Not Detected"
  ; bit 28 "COVL" "Cell Overvoltage Latch" "Detected" "Not Detected"
  ; bit 29 "OCDL" "Overcurrent in Discharge" "Detected" "Not Detected"
  ; bit 30 "RSVD" "Reserved" "" ""
  ; bit 31 "RSVD" "Reserved" "" "" ].

Definition pfAlertBits : list BitFieldInfo :=
  [ bit  0 "SUV" "Safety Cell Undervoltage Failure" "Detected" "Not Detected"
  ; bit  1 "SOV" "Safety Cell Overvoltage Failure" "Detected" "Not Detected"
  ; bit  2 "SOCC" "Safety Overcurrent in Charge" "Detected" "Not Detected"
  ; bit  3 "SOCD" "Safety Overcurrent in Discharge" "Detected" "Not Detected"
  ; bit  4 "SOT" "Safety Overtemperature Cell Failure" "Detected" "Not Detected"
  ; bit  5 "COVL" "Cell Overvoltage Latch" "Detected" "Not Detected"
  ; bit  6 "SOTF" "Safety Overtemperature FET Failure" "Detected" "Not Detected"
  ; bit  7 "QIM" "QMax Imbalance Failure" "Detected" "Not Detected"
  ; bit  8 "CB" "Cell Balancing Failure" "Detected" "Not Detected"
  ; bit  9 "IMP" "Impedance Failure" "Detected" "Not Detected"
  ; bit 10 "CD" "Capacity Degradation Failure" "Detected" "Not Detected"
  ; bit 11 "VIMR" "Voltage Imbalance At Rest" "Detected" "Not Detected"
  ; bit 12 "VIMA" "Voltage Imbalance While Active" "Detected" "Not Detected"
  ; bit 13 "AOLDL" "Overload in Discharge" "Detected" "Not Detected"
  ; bit 14 "ASCCL" "Short Circuit in Charge" "Detected" "Not Detected"
  ; bit 15 "ASCDL" "Short Circuit in Discharge" "Detected" "Not Detected"
  ; bit 16 "CFETF" "Charge FET Failure" "Detected" "Not Detected"
  ; bit 17 "DFETF" "Discharge FET Failure" "Detected" "Not Detected"
  ; bit 18 "OCDL" "Overcurrent in Discharge" "Detected" "Not Detected"
  ; bit 19 "FUSE" "Chemical Fuse Failure" "Detected" "Not Detected"
  ; bit 20 "AFER" "AFE Register Failure" "Detected" "Not Detected"
  ; bit 21 "AFEC" "AFE Communication Failure" "Detected" "Not Detected"
  ; bit 22 "2LVL" "Second Level Protector Failure" "Detected" "Not Detected"
  ; bit 23 "RSVD" "Reserved" "" ""
  ; bit 24 "RSVD" "Reserved" "" ""
  ; bit 25 "RSVD" "Reserved" "" ""
  ; bit 26 "RSVD" "Reserved" "" ""
  ; bit 27 "RSVD" "Reserved" "" ""
  ; bit 28 "TS1" "Open Thermistor TS1 Failure" "Detected" "Not Detected"
  ; bit 29 "TS2" "Open Thermistor TS2 Failure" "Detected" "Not Detected"
  ; bit 30 "TS3" "Open Thermistor TS3 Failure" "Detected" "Not Detected"
  ; bit 31 "TS4" "Open Thermistor TS4 Failure" "Detected" "Not Detected" ].

Definition pfStatusBits : list BitFieldInfo :=
  [ bit  0 "SUV" "Safety Cell Undervoltage Failure" "Detected" "Not Detected"
  ; bit  1 "SOV" "Safety Cell Overvoltage Failure" "Detected" "Not Detected"
  ; bit  2 "SOCC" "Safety Overcurrent in Charge" "Detected" "Not Detected"
  ; bit  3 "SOCD" "Safety Overcurrent in Discharge" "Detected" "Not Detected"
  ; bit  4 "SOT" "Safety Overtemperature Cell Failure" "Detected" "Not Detected"
  ; bit  5 "COVL" "Cell Overvoltage Latch" "Detected" "Not Detected"
  ; bit  6 "SOTF" "Safety Overtemperature FET Failure" "Detected" "Not Detected"
  ; bit  7 "QIM" "QMax Imbalance Failure" "Detected" "Not Detected"
  ; bit  8 "CB" "Cell Balancing Failure" "Detected" "Not Detected"
  ; bit  9 "IMP" "Impedance Failure" "Detected" "Not Detected"
  ; bit 10 "CD" "Capacity Degradation Failure" "Detected" "Not Detected"
  ; bit 11 "VIMR" "Voltage Imbalance At Rest" "Detected" "Not Detected"
  ; bit 12 "VIMA" "Voltage Imbalance While Active" "Detected" "Not Detected"
  ; bit 13 "AOLDL" "Overload in Discharge" "Detected" "Not Detected"
  ; bit 14 "ASCCL" "Short Circuit in Charge" "Detected" "Not Detected"
  ; bit 15 "ASCDL" "Short Circuit in Discharge" "Detected" "Not Detected"
  ; bit 16 "CFETF" "Charge FET Failure" "Detected" "Not Detected"
  ; bit 17 "DFETF" "Discharge FET Failure" "Detected" "Not Detected"
  ; bit 18 "OCDL" "Overcurrent in Discharge" "Detected" "Not Detected"
  ; bit 19 "FUSE" "Chemical Fuse Failure" "Detected" "Not Detected"
  ; bit 20 "AFER" "AFE Register Failure" "Detected" "Not Detected"
  ; bit 21 "AFEC" "AFE Communication Failure" "Detected" "Not Detected"
  ; bit 22 "2LVL" "Second Level Protector Failure" "Detected" "Not Detected"
  ; bit 23 "PTC" "PTC Failure" "Detected" "Not Detected"
  ; bit 24 "IFC" "Instruction Flash Checksum Failure" "Detected" "Not Detected"
  ; bit 25 "RSVD" "Reserved" "" ""
  ; bit 26 "DFW" "Data Flash Wearout Failure" "Detected" "Not Detected"
  ; bit 27 "RSVD" "Reserved" "" ""
  ; bit 28 "TS1" "Open Thermistor TS1 Failure" "Detected" "Not Detected"
  ; bit 29 "TS2" "Open Thermistor TS2 Failure" "Detected" "Not Detected"
  ; bit 30 "TS3" "Open Thermistor TS3 Failure" "Detected" "Not Detected"
  ; bit 31 "TS4" "Open Thermistor TS4 Failure" "Detected" "Not Detected" ].

Definition operationStatusBits : list BitFieldInfo :=
  [ bit  0 "PRES" "System Present (low)" "Active" "Inactive"
  ; bit  1 "DSG" "Discharge FET status" "Active" "Inactive"
  ; bit  2 "CHG" "Charge FET status" "Active" "Inactive"
  ; bit  3 "PCHG" "Precharge FET status" "Active" "Inactive"
  ; bit  4 "RSVD" "Reserved" "" ""
  ; bit  5 "FUSE" "Fuse status" "Active" "Inactive"
  ; bit  6 "RSVD" "Reserved" "" ""
  ; bit  7 "BTP_INT" "Battery Trip Point Interrupt" "Active" "Inactive"
  ; bit  8 "SEC0" "Security Mode Bit 0 (00-Reserved 01-FullAccess 10-Unsealed 11-Sealed)" "" ""
  ; bit  9 "SEC1" "Security Mode Bit 1 (00-Reserved 01-FullAccess 10-Unsealed 11-Sealed)" "" ""
  ; bit 10 "SDV" "Shutdown due to low pack voltage" "Active" "Inactive"
  ; bit 11 "SS" "Safety Status (OR of all safety bits)" "Active" "Inactive"
  ; bit 12 "PF" "Permanent Failure mode" "Active" "Inactive"
  ; bit 13 "XDSG" "Discharging disabled" "Active" "Inactive"
  ; bit 14 "XCHG" "Charging disabled" "Active" "Inactive"
  ; bit 15 "SLEEP" "Sleep mode conditions met" "Active" "Inactive"
  ; bit 16 "SDM" "Shutdown via command" "Active" "Inactive"
  ; bit 17 "LED" "LED Display status" "On" "Off"
  ; bit 18 "AUTH" "Authentication in progress" "Active" "Inactive"
  ; bit 19 "CALM" "Auto CC Offset Calibration (MAC)" "Active" "Inactive"
  ; bit 20 "CAL" "Calibration output (ADC/CC)" "Available" "Not available"
  ; bit 21 "CAL_OFFSET" "Calibration Output (Shorted CC)" "Available" "Not available"
  ; bit 22 "XL" "400-kHz SMBus mode" "Active" "Inactive"
  ; bit 23 "SLEEPM" "SLEEP mode via command" "Active" "Inactive"
  ; bit 24 "INIT" "Initialization after full reset" "Active" "Inactive"
  ; bit 25 "SMBLCAL" "Auto CC Calibration (bus low)" "Started" "Not started"
  ; bit 26 "SLPAD" "ADC Measurement in Sleep" "Active" "Inactive"
  ; bit 27 "SLPCC" "CC Measurement in Sleep" "Active" "Inactive"
  ; bit 28 "CB" "Cell Balancing status" "Active" "Inactive"
  ; bit 29 "EMSHUT" "Emergency FET Shutdown" "Active" "Inactive"
  ; bit 30 "RSVD" "Reserved" "" ""
  ; bit 31 "RSVD" "Reserved" "" "" ].

Definition ManufacturingStatusBits : list BitFieldInfo :=
  [ bit  0 "PCHG" "Precharge FET Test." "Active" "Disabled"
  ; bit  1 "CHG" "Charge FET Test." "Active" "Disabled"
  ; bit  2 "DSG" "Discharge FET Test." "Active" "Disabled"
  ; bit  3 "GAUGE" "Gas Gauging." "Enabled" "Disabled"
  ; bit  4 "FET" "All FET Action." "Enabled" "Disabled"
  ; bit  5 "LF" "Lifetime data collection." "Enabled" "Disabled"
  ; bit  6 "PF" "Permanent Failure functionality." "Enabled" "Disabled"
  ; bit  7 "BBR" "Black box recorder." "Enabled" "Disabled"
  ; bit  8 "FUSE" "FUSE action." "Enabled" "Disabled"
  ; bit  9 "LED" "LED Display." "On" "Off"
  ; bit 10 "RSVD" "Reserved" "Enabled" "Disabled"
  ; bit 11 "RSVD" "Reserved" "Enabled" "Disabled"
  ; bit 12 "RSVD" "Reserved" "Enabled" "Disabled"
  ; bit 13 "RSVD" "Reserved" "Enabled" "Disabled"
  ; bit 14 "LT_TS" "Lifetime Speed Up mode." "Enabled" "Disabled"
  ; bit 15 "CALTS" "CAL ADC or CC output on ManufacturerData()." "Enabled" "Disabled" ].

Definition MBACommandsInfo : list MBACommandInfo :=
  [ command 0x0001 [] 0 "DeviceType" "R" FORMAT_HEX None 0
      "Identifies the battery device type to verify model and family compatibility."
  ; command 0x0002 [] 0 "FirmwareVersion" "R" FORMAT_HEX None 0
      "Reports the firmware version running on the battery controller, useful for compatibility and updates."
  ; command 0x0003 [] 0 "HardwareVersion" "R" FORMAT_HEX None 0
      "Indicates the hardware revision of the device to identify physical variations or improvements."
  ; command 0x0024 [] 0 "PermanentFailure" "W" FORMAT_HEX None 0
      "This command enables/disables Permanent Failure to help streamline production testing."
  ; command 0x0028 [] 0 "LifetimeDataReset" "W" FORMAT_HEX None 0
      "Resets accumulated lifetime data such as cycle count and usage statistics."
  ; command 0x0029 [] 0 "PermanentFailureDataReset" "W" FORMAT_HEX None 0
      "Resets permanent failure data flags to clear fault status."
  ; command 0x002A [] 0 "BlackBoxRecorderReset" "W" FORMAT_HEX None 0
      "Resets the black box event recorder to clear logged fault history."
  ; command 0x0030 [] 0 "SealDevice" "W" FORMAT_HEX None 0
      "Seals the device to prevent further modifications to configuration or data."
  ; command 0x0041 [] 0 "DeviceReset" "W" FORMAT_HEX None 0
      "Command to reset the device, reinitializing all registers and states."
  ; command 0x0050 [] 0 "SafetyAlert" "R" FORMAT_BINARY (Some safetyAlertBits) 32
      "Returns current safety alert flags indicating critical conditions such as overvoltage or overtemperature."
  ; command 0x0051 [] 0 "SafetyStatus" "R" FORMAT_BINARY (Some safetyStatusBits) 32
      "Reports the current safety status of the device, showing ongoing safety-related events."
  ; command 0x0052 [] 0 "PFAlert" "R" FORMAT_BINARY (Some pfAlertBits) 32
      "Indicates permanent failure alerts that require immediate attention or servicing."
  ; command 0x0053 [] 0 "PFStatus" "R" FORMAT_BINARY (Some pfStatusBits) 32
      "Reports the status of permanent failure flags for battery health monitoring."
  ; command 0x0054 [] 0 "OperationStatus" "R" FORMAT_BINARY (Some operationStatusBits) 32
      "General operational status reporting the current mode and condition of the device."
  ; command 0x0057 [] 0 "ManufacturingStatus" "R" FORMAT_BINARY (Some ManufacturingStatusBits) 16
      "Contains informations about activated modes (PF, etc ..)"
  ; command 0x7EE0 [] 0 "UnsealKey1" "W" FORMAT_HEX None 0
      "Key to change security mode from SEALED to UNSEALED 1/2. The two words must be sent within 4 s."
  ; command 0xCCDF [] 0 "UnsealKey2" "W" FORMAT_HEX None 0
      "Key to change security mode from SEALED to UNSEALED 2/2. The two words must be sent within 4 s."
  ; command 0x4062 [] 0 "PF2RegisterRead" "R" FORMAT_HEX None 0
      "Custom DJI register key where we can find the PF2 flag."
  ; command 0x4062 [0x01; 0x23; 0x45; 0x67] 4 "ClearPF2" "W" FORMAT_HEX None 0
      "Overwrite the custom DJI register key where we can find the PF2 flag." ].

(** ** The environment: serial port, clock, bus and buffer memory *)

(** What a call does to the outside, in program order. *)
Inductive Event : Type :=
| Text (s : string)          (* Serial.print of a string *)
| Dec (n : Z)                (* Serial.print of a number *)
| Hex (n : Z)                (* Serial.print(n, HEX) *)
| Chr (c : Z)                (* Serial.print((char) c) *)
| NewLine                    (* the line end written by Serial.println *)
| Delay (ms : Z)             (* delay(ms) *)
| Transmit (address : Z) (bytes : list Z) (stop : bool)
                             (* Wire.endTransmission: the frame put on the bus *)
| Request (address quantity : Z)
                             (* Wire.requestFrom *)
| Store (index value : Z).   (* buffer[index] = value *)

(** [mem] is the memory behind the pointer [buffer] that the functions
    receive: [mem w i] is [buffer[i]].  It extends past the caller's array,
    so a store at an index beyond the capacity is visible as a [Store]
    event with that index.  [bus_status] and [reply] are the environment's
    answers: the status codes of the coming [endTransmission] calls and the
    bytes the device supplies to the next read request. *)
Record World : Type := mkWorld {
  clock : Z;
  tx_address : Z;
  tx_buffer : list Z;
  rx_buffer : list Z;
  mem : Z -> Z;
  bus_status : nat -> Z;
  reply : list Z
}.

Definition set_clock (t : Z) (w : World) : World :=
  mkWorld t (tx_address w) (tx_buffer w) (rx_buffer w) (mem w)
          (bus_status w) (reply w).
Definition set_tx (a : Z) (b : list Z) (w : World) : World :=
  mkWorld (clock w) a b (rx_buffer w) (mem w) (bus_status w) (reply w).
Definition set_rx (r : list Z) (w : World) : World :=
  mkWorld (clock w) (tx_address w) (tx_buffer w) r (mem w)
          (bus_status w) (reply w).
Definition set_mem (m : Z -> Z) (w : World) : World :=
  mkWorld (clock w) (tx_address w) (tx_buffer w) (rx_buffer w) m
          (bus_status w) (reply w).
Definition next_status (w : World) : World :=
  mkWorld (clock w) (tx_address w) [] (rx_buffer w) (mem w)
          (fun n => bus_status w (S n)) (reply w).

(** A computation reads and changes the world and emits events; [None] is
    a polling loop that ran out of fuel. *)
Definition M (A : Type) : Type := World -> option (A * World * list Event).

Definition ret {A : Type} (x : A) : M A := fun w => Some (x, w, []).

Definition bind {A B : Type} (m : M A) (f : A -> M B) : M B := fun w =>
  match m w with
  | None => None
  | Some (x, w1, e1) =>
      match f x w1 with
      | None => None
      | Some (y, w2, e2) => Some (y, w2, e1 ++ e2)
      end
  end.

Notation "x <- m ;; k" := (bind m (fun x => k))
  (at level 61, m at next level, right associativity).
Notation "m ;; k" := (bind m (fun _ => k))
  (at level 61, right associativity).

Definition emit (e : list Event) : M unit := fun w => Some (tt, w, e).

(** *** Serial *)

Definition Serial_print (s : string) : M unit := emit [Text s].
Definition Serial_println (s : string) : M unit := emit [Text s; NewLine].
Definition Serial_newline : M unit := emit [NewLine].
Definition Serial_print_dec (n : Z) : M unit := emit [Dec n].
Definition Serial_print_hex (n : Z) : M unit := emit [Hex n].
Definition Serial_print_char (c : Z) : M unit := emit [Chr c].

(** Printing a [const char*] that may be [NULL] writes nothing for [NULL]. *)
Definition Serial_print_ptr (s : option string) : M unit :=
  match s with
  | Some t => Serial_print t
  | None => ret tt
  end.

(** *** Clock *)

Definition millis : M Z := fun w => Some (to_uint32 (clock w), w, []).
Definition delay (ms : Z) : M unit :=
  fun w => Some (tt, set_clock (clock w + ms) w, [Delay ms]).

(** *** Wire *)

Definition Wire_beginTransmission (address : Z) : M unit :=
  fun w => Some (tt, set_tx address [] w, []).

Definition Wire_write (b : Z) : M unit :=
  fun w => Some (tt, set_tx (tx_address w) (tx_buffer w ++ [to_uint8 b]) w, []).

Definition Wire_endTransmission (stop : bool) : M Z :=
  fun w => Some (bus_status w 0%nat, next_status w,
                 [Transmit (tx_address w) (tx_buffer w) stop]).

(** The read is over when [requestFrom] returns: the receive buffer holds
    the bytes of the transfer, at most [quantity] and at most the size of
    the library's buffer. *)
Definition delivered (quantity : Z) (w : World) : list Z :=
  firstn (Z.to_nat (Z.min quantity SOFTWAREWIRE_BUFSIZE)) (reply w).

Definition Wire_requestFrom (address quantity : Z) : M unit :=
  fun w => Some (tt, set_rx (delivered quantity w) w,
                 [Request address quantity]).

Definition Wire_available : M Z :=
  fun w => Some (Z.of_nat (List.length (rx_buffer w)), w, []).

(** [Wire.read()] returns -1 when nothing is left. *)
Definition Wire_read : M Z := fun w =>
  match rx_buffer w with
  | [] => Some (-1, w, [])
  | b :: r => Some (b, set_rx r w, [])
  end.

(** *** Buffer memory *)

Definition load (i : Z) : M Z := fun w => Some (mem w i, w, []).

Definition update (i v : Z) (m : Z -> Z) : Z -> Z :=
  fun j => if j =? i then v else m j.

Definition store (i v : Z) : M unit :=
  fun w => Some (tt, set_mem (update i v (mem w)) w, [Store i v]).

(** ** utility.cpp *)

(** The loop [for (i = 0; i < bufferSize / 2; ++i)], [k] iterations left. *)
Fixpoint reverse_loop (k : nat) (i bufferSize : Z) : M unit :=
  match k with
  | O => ret tt
  | S k' =>
      temp <- load i;;
      other <- load (bufferSize - 1 - i);;
      store i other;;
      store (bufferSize - 1 - i) temp;;
      reverse_loop k' (i + 1) bufferSize
  end.

Definition reverseBufferEndian (bufferSize : Z) : M unit :=
  reverse_loop (Z.to_nat (bufferSize / 2)) 0 bufferSize.

Fixpoint print_hex_loop (k : nat) (i : Z) : M unit :=
  match k with
  | O => ret tt
  | S k' =>
      b <- load i;;
      Serial_print "0x";;
      (if b <? 0x10 then Serial_print "0" else ret tt);;
      Serial_print_hex b;;
      Serial_print " ";;
      print_hex_loop k' (i + 1)
  end.

Fixpoint print_dec_loop (k : nat) (i : Z) : M unit :=
  match k with
  | O => ret tt
  | S k' =>
      b <- load i;;
      Serial_print_dec b;;
      Serial_print " ";;
      print_dec_loop k' (i + 1)
  end.

(** [for (int b = 7; b >= 0; b--)], [k] bits left, the next one is [k - 1]. *)
Fixpoint print_bits (k : nat) (v : Z) : M unit :=
  match k with
  | O => ret tt
  | S k' => Serial_print_dec (bitRead v (Z.of_nat k'));; print_bits k' v
  end.

Fixpoint print_bin_loop (k : nat) (i : Z) : M unit :=
  match k with
  | O => ret tt
  | S k' =>
      b <- load i;;
      print_bits 8 b;;
      Serial_print " ";;
      print_bin_loop k' (i + 1)
  end.

Fixpoint print_txt_loop (k : nat) (i : Z) : M unit :=
  match k with
  | O => ret tt
  | S k' =>
      b <- load i;;
      (if (32 <=? b) && (b <=? 126) then Serial_print_char b
       else Serial_print ".");;
      print_txt_loop k' (i + 1)
  end.

Definition printBuffer (bufferSize : Z) (displayFormat : DisplayFormat)
    : M unit :=
  Serial_print "Data (hex): ";;
  print_hex_loop (Z.to_nat bufferSize) 0;;
  Serial_newline;;
  match displayFormat with
  | FORMAT_DECIMAL =>
      Serial_print "Data (dec): ";;
      print_dec_loop (Z.to_nat bufferSize) 0;;
      Serial_newline
  | FORMAT_BINARY =>
      Serial_print "Data (bin): ";;
      print_bin_loop (Z.to_nat bufferSize) 0;;
      Serial_newline
  | FORMAT_TEXT =>
      Serial_print "Data (txt): ";;
      print_txt_loop (Z.to_nat bufferSize) 0;;
      Serial_newline
  | FORMAT_HEX | FORMAT_MIXED => ret tt
  end.

(** [uint8_t byteIndex = (bitfieldsCount/8) - (b->bitIndex / 8) - 1]: the
    difference is computed in [int] and stored in eight bits. *)
Definition byteIndex (bitfieldsCount : Z) (b : BitFieldInfo) : Z :=
  to_uint8 (bitfieldsCount / 8 - bitIndex b / 8 - 1).

Definition bitInByte (b : BitFieldInfo) : Z := to_uint8 (bitIndex b mod 8).

(** [bitSet]: false unless [byteIndex < bufferSize], then
    [(buffer[byteIndex] >> bitInByte) & 0x01] converted to [bool]. *)
Definition read_bit (bufferSize bitfieldsCount : Z) (b : BitFieldInfo)
    : M bool :=
  if byteIndex bitfieldsCount b <? bufferSize then
    v <- load (byteIndex bitfieldsCount b);;
    ret (negb (Z.land (Z.shiftr v (bitInByte b)) 0x01 =? 0))
  else ret false.

(** One iteration of the loop of [printBitFields]. *)
Definition printBitField (bufferSize bitfieldsCount : Z) (b : BitFieldInfo)
    : M unit :=
  bitSet <- read_bit bufferSize bitfieldsCount b;;
  Serial_print "Bit ";;
  Serial_print_dec (bitIndex b);;
  Serial_print " (";;
  Serial_print (label b);;
  Serial_print "): ";;
  (if bitSet : bool then
     Serial_print "1 = ";;
     Serial_print (activeValue b)
   else
     Serial_print "0 = ";;
     match inactiveValue b with
     | Some t => Serial_print t
     | None => Serial_print "Inactive"
     end);;
  match description b with
  | Some d => Serial_print " - ";; Serial_println d
  | None => ret tt
  end.

(** The descriptor read at an index past the end of the table is not
    specified by the language; the catalogue never asks for one. *)
Definition unspecified_bit : BitFieldInfo :=
  {| bitIndex := 0; label := ""; description := None;
     activeValue := ""; inactiveValue := None |}.

Fixpoint printBitFields_loop (k : nat) (i : nat) (bufferSize : Z)
    (bitfields : list BitFieldInfo) (bitfieldsCount : Z) : M unit :=
  match k with
  | O => ret tt
  | S k' =>
      printBitField bufferSize bitfieldsCount
                    (nth i bitfields unspecified_bit);;
      printBitFields_loop k' (S i) bufferSize bitfields bitfieldsCount
  end.

Definition printBitFields (bufferSize : Z) (bitfields : list BitFieldInfo)
    (bitfieldsCount : Z) : M unit :=
  printBitFields_loop (Z.to_nat bitfieldsCount) 0 bufferSize bitfields
                      bitfieldsCount.

Definition printMBACommandError (result : Z) : M unit :=
  if result =? 1 then
    Serial_println "Error: Data too long to fit in transmit buffer."
  else if result =? 2 then
    Serial_println "Error: Received NACK on transmit of address."
  else if result =? 3 then
    Serial_println "Error: Received NACK on transmit of data."
  else if result =? 4 then
    Serial_println "Error: Other error occurred."
  else if result =? 5 then
    Serial_println "Error: Timeout occurred."
  else
    Serial_println "Error: Unknown error code.".

Fixpoint print_data_loop (k : nat) (i : nat) (d : list Z) : M unit :=
  match k with
  | O => ret tt
  | S k' =>
      (if nth i d 0 <? 0x10 then Serial_print "0" else ret tt);;
      Serial_print_hex (nth i d 0);;
      print_data_loop k' (S i) d
  end.

Definition printMBACommandInfo (cmdInfo : MBACommandInfo) : M unit :=
  Serial_print (name cmdInfo);;
  Serial_print " : CMD=0x";;
  (if MANUFACTURER_BLOCK_ACCESS_COMMAND <? 0x10 then Serial_print "0"
   else ret tt);;
  Serial_print_hex MANUFACTURER_BLOCK_ACCESS_COMMAND;;
  Serial_print ", SUBCMD=0x";;
  (if highByte (cmd cmdInfo) <? 0x10 then Serial_print "0" else ret tt);;
  Serial_print_hex (highByte (cmd cmdInfo));;
  (if lowByte (cmd cmdInfo) <? 0x10 then Serial_print "0" else ret tt);;
  Serial_print_hex (lowByte (cmd cmdInfo));;
  (if dataLength cmdInfo >? 0 then
     Serial_print " DATA=0x";;
     print_data_loop (Z.to_nat (dataLength cmdInfo)) 0 (data cmdInfo)
   else ret tt);;
  Serial_newline.

(** ** bqcmd.cpp *)

(** [strcmp] on NUL-terminated strings; the end of the [string] stands for
    the terminator.  The C library fixes only the sign of the result: it is
    represented by -1, 0 and 1. *)
Fixpoint strcmp (a b : string) : Z :=
  match a, b with
  | EmptyString, EmptyString => 0
  | EmptyString, String _ _ => -1
  | String _ _, EmptyString => 1
  | String c a', String d b' =>
      if Ascii.eqb c d then strcmp a' b'
      else if (nat_of_ascii c <? nat_of_ascii d)%nat then -1 else 1
  end.

(** The scan [for (i = 0; i < count; ++i)] over the rest of the table. *)
Fixpoint lookup_loop (table : list MBACommandInfo) (cmdName : string)
    : option MBACommandInfo :=
  match table with
  | [] => None
  | c :: rest =>
      if strcmp (name c) cmdName =? 0 then Some c
      else lookup_loop rest cmdName
  end.

(** The argument is a [const char*]: [None] is [NULL].  The result is the
    entry pointed to, [None] for [NULL]. *)
Definition getMBACommandInfoByName (cmdName : option string)
    : option MBACommandInfo :=
  match cmdName with
  | None => None
  | Some n => lookup_loop MBACommandsInfo n
  end.

(** The loop [for (i = 0; i < cmdInfo->dataLength; i++)]; a read past the
    eight elements of [data] is not specified by the language and modelled
    as zero. *)
Fixpoint write_data_loop (k : nat) (i : nat) (d : list Z) : M unit :=
  match k with
  | O => ret tt
  | S k' => Wire_write (nth i d 0);; write_data_loop k' (S i) d
  end.

Definition sendMBACommand (address : Z) (cmdInfo : MBACommandInfo) : M bool :=
  Wire_beginTransmission address;;
  Wire_write MANUFACTURER_BLOCK_ACCESS_COMMAND;;
  Wire_write (2 + dataLength cmdInfo);;
  Wire_write (lowByte (cmd cmdInfo));;
  Wire_write (highByte (cmd cmdInfo));;
  write_data_loop (Z.to_nat (dataLength cmdInfo)) 0 (data cmdInfo);;
  result <- Wire_endTransmission true;;
  delay 20;;
  if result =? 0 then ret true
  else printMBACommandError result;; ret false.

(** The loop that waits for the whole block.  The result is [true] when the
    loop is left by its condition and [false] when it returns from
    [readMBACommand] on the timeout. *)
Fixpoint wait_loop (fuel : nat) (len start : Z) : M bool :=
  match fuel with
  | O => fun _ => None
  | S fuel' =>
      a <- Wire_available;;
      if (a <? len) && (a <? SOFTWAREWIRE_BUFSIZE - 1) then
        now <- millis;;
        if to_uint32 (now - start) >? 10000 then
          Serial_print "Timeout waiting for full data block, only ";;
          a' <- Wire_available;;
          Serial_print_dec a';;
          Serial_println " bytes readable.";;
          ret false
        else
          delay 10;;
          wait_loop fuel' len start
      else ret true
  end.

(** Each turn of the loop advances the clock by 10 ms and the loop gives up
    once more than 10000 ms have passed: 1002 turns are enough (see
    [wait_loop_returns]). *)
Definition wait_fuel : nat := 1002.

(** The loop [for (uint8_t i = 0; i < available_bytes; i++)]; the receive
    buffer holds at most [SOFTWAREWIRE_BUFSIZE] bytes, so the 8-bit counter
    does not wrap. *)
Fixpoint copy_loop (k : nat) (i : Z) : M unit :=
  match k with
  | O => ret tt
  | S k' =>
      b <- Wire_read;;
      store i (to_uint8 b);;
      copy_loop k' (i + 1)
  end.

Definition readMBACommand (address : Z) (cmdInfo : MBACommandInfo)
    (bufferSize : Z) : M bool :=
  (if bufferSize >? SOFTWAREWIRE_BUFSIZE then
     Serial_print "⚠️  Warning: bufferSize exceeds Wire buffer max (";;
     Serial_print_dec SOFTWAREWIRE_BUFSIZE;;
     Serial_println " bytes)."
   else ret tt);;
  Wire_beginTransmission address;;
  Wire_write MANUFACTURER_BLOCK_ACCESS_COMMAND;;
  result <- Wire_endTransmission false;;
  if negb (result =? 0) then
    printMBACommandError result;;
    ret false
  else
    Wire_requestFrom address (to_uint8 bufferSize);;
    a <- Wire_available;;
    if a <? 3 then
      Serial_println "No data available to read";;
      ret false
    else
      b <- Wire_read;;
      let len := to_uint8 b in
      start <- millis;;
      complete <- wait_loop wait_fuel len start;;
      if negb complete then ret false
      else
        (if len >? bufferSize then
           Serial_print "⚠️  Warning: Block length (";;
           Serial_print_dec len;;
           Serial_print " bytes) exceeds buffer limit (";;
           Serial_print_dec bufferSize;;
           Serial_println " bytes). Truncation may occur."
         else
           Serial_print "Response length: ";;
           Serial_print_dec len;;
           Serial_println " bytes");;
        available_bytes <- Wire_available;;
        copy_loop (Z.to_nat available_bytes) 0;;
        printBuffer (Z.min available_bytes len) (displayFormat cmdInfo);;
        reverseBufferEndian len;;
        ret true.

(** [cmdInfo->access != "W"] compares the addresses of two string
    literals.  The table and the literal are in one translation unit, where
    the compiler keeps a single copy of identical literals: two literals
    have the same address exactly when they have the same contents. *)
Definition same_literal (p q : string) : bool := String.eqb p q.

(** The block run for the commands that are not write-only.  [Some r] is an
    early [return r] from [runMBACommand]. *)
Definition read_phase (address : Z) (cmdInfo : MBACommandInfo)
    : M (option bool) :=
  ok <- readMBACommand address cmdInfo SOFTWAREWIRE_BUFSIZE;;
  if negb ok then
    Serial_println "Failed to read command response";;
    Serial_newline;;
    ret (Some false)
  else
    match bitfields cmdInfo with
    | Some table =>
        if bitfieldCount cmdInfo >? 0 then
          printBitFields (SOFTWAREWIRE_BUFSIZE - 2) table
                         (bitfieldCount cmdInfo);;
          ret None
        else ret None
    | None => ret None
    end.

Definition runMBACommand (address : Z) (cmdName : option string) : M bool :=
  match getMBACommandInfoByName cmdName with
  | None =>
      Serial_print "Command not found: ";;
      Serial_print_ptr cmdName;;
      Serial_newline;;
      Serial_newline;;
      ret false
  | Some cmdInfo =>
      Serial_print "Starting command ";;
      printMBACommandInfo cmdInfo;;
      sent <- sendMBACommand address cmdInfo;;
      if negb sent then
        Serial_println "Failed to send command.";;
        Serial_newline;;
        ret false
      else
        returned <- (if negb (same_literal (access cmdInfo) "W")
                     then read_phase address cmdInfo
                     else ret None);;
        match returned with
        | Some r => ret r
        | None =>
            Serial_newline;;
            delay 100;;
            ret true
        end
  end.

(** ** Reading the events of a call *)

Definition is_serial (e : Event) : bool :=
  match e with
  | Text _ | Dec _ | Hex _ | Chr _ | NewLine => true
  | _ => false
  end.

Definition is_store (e : Event) : bool :=
  match e with
  | Store _ _ => true
  | _ => false
  end.

(** What the call wrote to the serial port, and the stores it made. *)
Definition serial_of (ev : list Event) : list Event := filter is_serial ev.
Definition stores_of (ev : list Event) : list Event := filter is_store ev.

(** The serial output ends with a line end, and with an empty line. *)
Definition ends_line (ev : list Event) : Prop :=
  exists pre, serial_of ev = pre ++ [NewLine].
Definition ends_blank_line (ev : list Event) : Prop :=
  exists pre, serial_of ev = pre ++ [NewLine; NewLine].

(** The call never waits the 100 ms of the runner. *)
Definition no_settle (ev : list Event) : Prop := ~ In (Delay 100) ev.

(** The contents of [buffer[0 .. n-1]]. *)
Definition buffer_bytes (n : nat) (w : World) : list Z :=
  map (fun i => mem w (Z.of_nat i)) (seq 0 n).

(** [m] returns from [w], and [Q] holds of its result, the world it leaves
    and the events it emits. *)
Definition returns {A : Type} (m : M A) (w : World)
    (Q : A -> World -> list Event -> Prop) : Prop :=
  exists x w' ev, m w = Some (x, w', ev) /\ Q x w' ev.

(** Lower case of the ASCII letters, to compare names up to case. *)
Definition lower_ascii (c : ascii) : ascii :=
  let n := nat_of_ascii c in
  if ((65 <=? n) && (n <=? 90))%nat then ascii_of_nat (n + 32) else c.

Fixpoint lower (s : string) : string :=
  match s with
  | EmptyString => EmptyString
  | String c r => String (lower_ascii c) (lower r)
  end.

(** A list of integers without repetition, decided. *)
Fixpoint distinctb (l : list Z) : bool :=
  match l with
  | [] => true
  | x :: r => negb (existsb (Z.eqb x) r) && distinctb r
  end.

Fixpoint distinct_strings (l : list string) : bool :=
  match l with
  | [] => true
  | x :: r => negb (existsb (String.eqb x) r) && distinct_strings r
  end.


(** ** Vocabulary of the statements *)

Definition error_message (result : Z) : string :=
  if result =? 1 then "Error: Data too long to fit in transmit buffer."
  else if result =? 2 then "Error: Received NACK on transmit of address."
  else if result =? 3 then "Error: Received NACK on transmit of data."
  else if result =? 4 then "Error: Other error occurred."
  else if result =? 5 then "Error: Timeout occurred."
  else "Error: Unknown error code.".

(** The bytes that [sendMBACommand] hands to the bus. *)
Definition frame_of (c : MBACommandInfo) : list Z :=
  [to_uint8 MANUFACTURER_BLOCK_ACCESS_COMMAND; to_uint8 (2 + dataLength c);
   to_uint8 (lowByte (cmd c)); to_uint8 (highByte (cmd c))] ++
  map (fun i => to_uint8 (nth i (data c) 0)) (seq 0 (Z.to_nat (dataLength c))).

Definition send_events (address : Z) (c : MBACommandInfo) (result : Z)
    : list Event :=
  Transmit address (frame_of c) true :: Delay 20 ::
  (if result =? 0 then [] else [Text (error_message result); NewLine]).

Definition after_send (address : Z) (w : World) : World :=
  mkWorld (clock w + 20) address [] (rx_buffer w) (mem w)
          (fun n => bus_status w (S n)) (reply w).

Definition emits_only {A : Type} (p : Event -> bool) (m : M A) : Prop :=
  forall w, returns m w (fun _ _ ev => forallb p ev = true).

(** Milliseconds since [start], as the loop computes them. *)
Definition elapsed (start : Z) (w : World) : Z :=
  to_uint32 (to_uint32 (clock w) - start).

(** Every bit of every table of the catalogue has a description, and no
    entry declares more bits than its table has. *)
Definition described (b : BitFieldInfo) : bool :=
  match description b with
  | Some _ => true
  | None => false
  end.

Definition schema_printable (c : MBACommandInfo) : bool :=
  match bitfields c with
  | Some table =>
      (Z.to_nat (bitfieldCount c) <=? List.length table)%nat &&
      forallb described table
  | None => true
  end.

(** The events end with the line end and the 100 ms wait of the runner. *)
Definition settles (ev : list Event) : Prop :=
  exists pre, ev = pre ++ [NewLine; Delay 100].

(** The write frame of the specification: the block access command, the
    length byte, the sub-command low byte first, the payload. *)
Definition write_frame (c : MBACommandInfo) : list Z :=
  [0x44; 2 + dataLength c; cmd c mod 256; cmd c / 256] ++
  firstn (Z.to_nat (dataLength c)) (data c).

Definition frame_as_specified (c : MBACommandInfo) : bool :=
  (dataLength c <=? 8) &&
  if list_eq_dec Z.eq_dec (frame_of c) (write_frame c) then true else false.

(** The bit indices of a table are pairwise distinct and the entry
    declares as many bits as the table has. *)
Definition schema_ok (c : MBACommandInfo) : Prop :=
  match bitfields c with
  | Some table =>
      NoDup (map bitIndex table) /\
      bitfieldCount c = Z.of_nat (List.length table)
  | None => True
  end.

Definition schema_okb (c : MBACommandInfo) : bool :=
  match bitfields c with
  | Some table =>
      distinctb (map bitIndex table) &&
      (bitfieldCount c =? Z.of_nat (List.length table))
  | None => true
  end.

Definition has_schema (c : MBACommandInfo) : bool :=
  match bitfields c with
  | Some _ => true
  | None => false
  end.

(** A world in which the bus accepts every transmission and the device
    answers [r] to a read request. *)
Definition quiet_bus (r : list Z) : World :=
  mkWorld 0 0 [] [] (fun _ => 0xEE) (fun _ => 0) r.

(** The entry of the catalogue at position [i]. *)
Definition catalogue_entry (i : nat) : MBACommandInfo :=
  nth i MBACommandsInfo (command 0 [] 0 "" "" FORMAT_HEX None 0 "").

Definition DeviceType_entry : MBACommandInfo := catalogue_entry 0.
Definition SealDevice_entry : MBACommandInfo := catalogue_entry 7.
Definition ClearPF2_entry : MBACommandInfo := catalogue_entry 18.

(** The indices of the stores among the events. *)
Definition store_indices (ev : list Event) : list Z :=
  flat_map (fun e => match e with Store i _ => [i] | _ => [] end) ev.

(** The line of one bit as the specification describes it: the byte at
    [index], bit [bitIndex mod 8] of it, unset when [index] is not below the
    buffer length. *)
Definition bit_value (bufferSize index : Z) (m : Z -> Z) (b : BitFieldInfo)
    : bool :=
  (index <? bufferSize) && Z.testbit (m index) (bitIndex b mod 8).

Definition bit_line (value : bool) (b : BitFieldInfo) : list Event :=
  [Text "Bit "; Dec (bitIndex b); Text " ("; Text (label b); Text "): "] ++
  (if value then [Text "1 = "; Text (activeValue b)]
   else [Text "0 = ";
         Text match inactiveValue b with
              | Some t => t
              | None => "Inactive"
              end]) ++
  match description b with
  | Some d => [Text " - "; Text d; NewLine]
  | None => []
  end.

(** A buffer of 256 bytes whose last byte is 1, and a table of one bit. *)
Definition last_byte_set : World :=
  mkWorld 0 0 [] [] (fun i => if i =? 255 then 1 else 0) (fun _ => 0) [].

Definition one_bit : list BitFieldInfo := [bit 0 "FLAG" "A flag" "On" "Off"].

(** A world in which the bus rejects the address of every transmission. *)
Definition nack_bus (r : list Z) : World :=
  mkWorld 0 0 [] [] (fun _ => 0xEE) (fun _ => 2) r.

Definition is_settle (e : Event) : bool :=
  match e with
  | Delay ms => ms =? 100
  | _ => false
  end.

(** Calls that leave the world as it is. *)
Definition keeps_world {A : Type} (m : M A) : Prop :=
  forall w x w' ev, m w = Some (x, w', ev) -> w' = w.

(** The milliseconds that the events spend in [delay]. *)
Definition total_delay (ev : list Event) : Z :=
  fold_right (fun e acc => match e with Delay ms => ms + acc | _ => acc end)
             0 ev.

(** A value that fits in eight bits. *)
Definition is_byte (b : Z) : Prop := 0 <= b < 256.

(** The line that warns of a buffer larger than the library's. *)
Definition oversize_warning (bufferSize : Z) : list Event :=
  if bufferSize >? SOFTWAREWIRE_BUFSIZE
  then [Text "⚠️  Warning: bufferSize exceeds Wire buffer max (";
        Dec SOFTWAREWIRE_BUFSIZE; Text " bytes)."; NewLine]
  else [].

(** The number whose digits in base [base] are [digits], most significant
    first, and least significant first. *)
Definition of_digits (base : Z) (digits : list Z) : Z :=
  fold_left (fun acc d => base * acc + d) digits 0.

Definition of_digits_le (base : Z) (digits : list Z) : Z :=
  fold_right (fun d acc => base * acc + d) 0 digits.

(** The lines that the runner prints for the table of an entry, from the
    30 bytes that it hands to the decoder. *)
Definition decode_lines (c : MBACommandInfo) (m : Z -> Z) : list Event :=
  match bitfields c with
  | Some table =>
      if bitfieldCount c >? 0
      then flat_map
             (fun b =>
                bit_line (bit_value (SOFTWAREWIRE_BUFSIZE - 2)
                            ((bitfieldCount c / 8 - bitIndex b / 8 - 1) mod 256)
                            m b) b)
             (firstn (Z.to_nat (bitfieldCount c)) table)
      else []
  | None => []
  end.

(** What [printBuffer] writes for one byte in each of its lines. *)
Definition hex_tokens (b : Z) : list Event :=
  [Text "0x"] ++ (if b <? 0x10 then [Text "0"] else []) ++ [Hex b; Text " "].

Definition dec_tokens (b : Z) : list Event := [Dec b; Text " "].

Definition bin_tokens (b : Z) : list Event :=
  map (fun k => Dec (bitRead b k)) [7; 6; 5; 4; 3; 2; 1; 0] ++ [Text " "].

Definition txt_tokens (b : Z) : list Event :=
  [if (32 <=? b) && (b <=? 126) then Chr b else Text "."].

(** The output of [printBuffer] for the bytes of the buffer. *)
Definition buffer_lines (bytes : list Z) (f : DisplayFormat) : list Event :=
  [Text "Data (hex): "] ++ flat_map hex_tokens bytes ++ [NewLine] ++
  match f with
  | FORMAT_DECIMAL =>
      [Text "Data (dec): "] ++ flat_map dec_tokens bytes ++ [NewLine]
  | FORMAT_BINARY =>
      [Text "Data (bin): "] ++ flat_map bin_tokens bytes ++ [NewLine]
  | FORMAT_TEXT =>
      [Text "Data (txt): "] ++ flat_map txt_tokens bytes ++ [NewLine]
  | FORMAT_HEX | FORMAT_MIXED => []
  end.

(** The bytes of [buffer[i .. i+k-1]]. *)
Definition bytes_from (i : Z) (k : nat) (w : World) : list Z :=
  map (fun j => mem w (i + Z.of_nat j)) (seq 0 k).

(** The table of an entry is as wide as the entry says, a whole number of
    bytes that fits the window of the runner, and holds one bit for each
    index below its width. *)
Definition schema_fits (c : MBACommandInfo) : bool :=
  match bitfields c with
  | Some table =>
      (0 <? bitfieldCount c) && (bitfieldCount c <? 256) &&
      (bitfieldCount c =? 8 * (bitfieldCount c / 8)) &&
      (bitfieldCount c / 8 <=? SOFTWAREWIRE_BUFSIZE - 2) &&
      (List.length table =? Z.to_nat (bitfieldCount c))%nat &&
      forallb (fun b => (0 <=? bitIndex b) && (bitIndex b <? bitfieldCount c))
              table
  | None => true
  end.

(** * Properties *)

(** ** The monad *)

Lemma returns_ret {A : Type} (x : A) w (Q : A -> World -> list Event -> Prop) :
  Q x w [] -> returns (ret x) w Q.
Proof. intros H. exists x, w, []. split; [reflexivity | exact H]. Qed.

Lemma returns_bind {A B : Type} (m : M A) (f : A -> M B) w
    (Q : B -> World -> list Event -> Prop) :
  returns m w (fun x w1 e1 =>
    returns (f x) w1 (fun y w2 e2 => Q y w2 (e1 ++ e2))) ->
  returns (bind m f) w Q.
Proof.
  intros (x & w1 & e1 & Hm & y & w2 & e2 & Hf & HQ).
  exists y, w2, (e1 ++ e2). split; [| exact HQ].
  unfold bind. rewrite Hm, Hf. reflexivity.
Qed.

Lemma returns_weaken {A : Type} (m : M A) w
    (P Q : A -> World -> list Event -> Prop) :
  returns m w P -> (forall x w' ev, P x w' ev -> Q x w' ev) -> returns m w Q.
Proof.
  intros (x & w' & ev & Hm & HP) HPQ. exists x, w', ev. split; auto.
Qed.

Lemma returns_emit ev w (Q : unit -> World -> list Event -> Prop) :
  Q tt w ev -> returns (emit ev) w Q.
Proof. intros H. exists tt, w, ev. split; [reflexivity | exact H]. Qed.

Lemma bind_Some {A B : Type} (m : M A) (f : A -> M B) w x w1 e1 :
  m w = Some (x, w1, e1) ->
  bind m f w =
  match f x w1 with
  | None => None
  | Some (y, w2, e2) => Some (y, w2, e1 ++ e2)
  end.
Proof. intros H. unfold bind. rewrite H. reflexivity. Qed.

(** ** Events *)

Lemma serial_of_app a b : serial_of (a ++ b) = serial_of a ++ serial_of b.
Proof. apply filter_app. Qed.

Lemma stores_of_app a b : stores_of (a ++ b) = stores_of a ++ stores_of b.
Proof. apply filter_app. Qed.

Lemma ends_line_app a b : ends_line b -> ends_line (a ++ b).
Proof.
  intros [pre H]. exists (serial_of a ++ pre).
  rewrite serial_of_app, H, app_assoc. reflexivity.
Qed.

Lemma ends_line_silent a b : ends_line a -> serial_of b = [] -> ends_line (a ++ b).
Proof.
  intros [pre H] Hb. exists pre.
  rewrite serial_of_app, H, Hb, app_nil_r. reflexivity.
Qed.

Lemma ends_blank_line_intro a : ends_line a -> ends_blank_line (a ++ [NewLine]).
Proof.
  intros [pre H]. exists pre.
  rewrite serial_of_app, H, <- app_assoc. reflexivity.
Qed.

Lemma ends_blank_line_app a b : ends_blank_line b -> ends_blank_line (a ++ b).
Proof.
  intros [pre H]. exists (serial_of a ++ pre).
  rewrite serial_of_app, H, app_assoc. reflexivity.
Qed.

Lemma ends_blank_line_silent a b :
  ends_blank_line a -> serial_of b = [] -> ends_blank_line (a ++ b).
Proof.
  intros [pre H] Hb. exists pre.
  rewrite serial_of_app, H, Hb, app_nil_r. reflexivity.
Qed.

Lemma no_settle_app a b : no_settle a -> no_settle b -> no_settle (a ++ b).
Proof.
  unfold no_settle. intros Ha Hb H. apply in_app_or in H. tauto.
Qed.

Lemma no_settle_nil : no_settle [].
Proof. intros H. exact H. Qed.

(** ** Byte-order reversal *)

(** Case analysis on the integer comparisons of the goal. *)
Ltac zcases :=
  repeat match goal with
         | |- context [?a <=? ?b] => destruct (Z.leb_spec a b)
         | |- context [?a <? ?b] => destruct (Z.ltb_spec a b)
         | |- context [?a =? ?b] => destruct (Z.eqb_spec a b)
         end;
  cbn [andb orb negb].

Lemma set_mem_set_mem a b w : set_mem a (set_mem b w) = set_mem a w.
Proof. reflexivity. Qed.

Lemma set_mem_same w : set_mem (mem w) w = w.
Proof. destruct w; reflexivity. Qed.

(** After [k] swaps from index [i] the two ends have changed places and
    the middle is as it was. *)
Lemma reverse_loop_spec k : forall i n w,
  0 <= i -> 2 * (i + Z.of_nat k) <= n ->
  exists m' ev,
    reverse_loop k i n w = Some (tt, set_mem m' w, ev) /\
    stores_of ev = ev /\
    forall j, m' j =
      if ((i <=? j) && (j <? i + Z.of_nat k)) ||
         ((n - (i + Z.of_nat k) <=? j) && (j <? n - i))
      then mem w (n - 1 - j) else mem w j.
Proof.
  induction k as [|k IH]; intros i n w Hi Hn.
  - exists (mem w), []. split; [rewrite set_mem_same; reflexivity|]. split; [reflexivity|].
    intros j. zcases; try reflexivity; exfalso; lia.
  - destruct (IH (i + 1) n
               (set_mem (update (n - 1 - i) (mem w i)
                                (update i (mem w (n - 1 - i)) (mem w)))
                        w))
      as (m' & ev & Hrun & Hst & Hm'); [lia | lia |].
    exists m', (Store i (mem w (n - 1 - i)) :: Store (n - 1 - i) (mem w i) :: ev).
    split; [| split].
    + cbn [reverse_loop]. unfold bind, load, store.
      cbn [mem set_mem]. rewrite set_mem_set_mem, Hrun.
      rewrite set_mem_set_mem. reflexivity.
    + cbn. f_equal. f_equal. exact Hst.
    + intros j. rewrite Hm'. cbn [mem set_mem]. unfold update.
      zcases; try reflexivity; try (exfalso; lia); f_equal; lia.
Qed.

Lemma reverseBufferEndian_spec n w :
  exists m' ev,
    reverseBufferEndian n w = Some (tt, set_mem m' w, ev) /\
    stores_of ev = ev /\
    forall j, m' j = if (0 <=? j) && (j <? n) then mem w (n - 1 - j)
                     else mem w j.
Proof.
  unfold reverseBufferEndian.
  destruct (Z.le_gt_cases 0 n) as [Hn | Hn].
  - destruct (reverse_loop_spec (Z.to_nat (n / 2)) 0 n w)
      as (m' & ev & Hrun & Hst & Hm').
    + lia.
    + rewrite Z2Nat.id by (apply Z.div_pos; lia).
      pose proof (Z.mul_div_le n 2 ltac:(lia)). lia.
    + exists m', ev. split; [exact Hrun | split; [exact Hst |]].
      intros j. rewrite Hm'. rewrite Z2Nat.id by (apply Z.div_pos; lia).
      pose proof (Z.mul_div_le n 2 ltac:(lia)).
      pose proof (Z.mul_succ_div_gt n 2 ltac:(lia)).
      zcases; try reflexivity; try (exfalso; lia); f_equal; lia.
  - assert (Hk : Z.to_nat (n / 2) = 0%nat).
    { pose proof (Z.mul_div_le n 2 ltac:(lia)). lia. }
    rewrite Hk. exists (mem w), []. split; [rewrite set_mem_same; reflexivity|].
    split; [reflexivity|]. intros j. zcases; try reflexivity; exfalso; lia.
Qed.

Lemma nth_map_seq (f : nat -> Z) n i :
  (i < n)%nat -> nth i (map f (seq 0 n)) 0 = f i.
Proof.
  intros Hi.
  rewrite (nth_indep _ 0 (f 0%nat)) by (rewrite length_map, length_seq; exact Hi).
  rewrite (map_nth f), seq_nth by exact Hi. reflexivity.
Qed.

(** C8. Reversing a buffer of [n] bytes twice gives back every byte of the
    memory, and reversing a buffer of odd length once leaves its middle
    byte, at index [n / 2], as it was; one reversal turns the [n] bytes of
    the buffer into their mirror image. *)
Theorem reverseBufferEndian_involution n w :
  (exists m2 ev,
     (reverseBufferEndian n;; reverseBufferEndian n) w
       = Some (tt, set_mem m2 w, ev) /\
     forall j, m2 j = mem w j) /\
  (exists m1 ev,
     reverseBufferEndian n w = Some (tt, set_mem m1 w, ev) /\
     (Z.odd n = true -> m1 (n / 2) = mem w (n / 2)) /\
     buffer_bytes (Z.to_nat n) (set_mem m1 w)
       = rev (buffer_bytes (Z.to_nat n) w)).
Proof.
  destruct (reverseBufferEndian_spec n w) as (m1 & e1 & H1 & _ & Hm1).
  destruct (reverseBufferEndian_spec n (set_mem m1 w)) as (m2 & e2 & H2 & _ & Hm2).
  split.
  - exists m2, (e1 ++ e2). split.
    + rewrite (bind_Some _ _ _ _ _ _ H1), H2. reflexivity.
    + intros j. rewrite Hm2. cbn [mem set_mem]. rewrite !Hm1.
      zcases; try reflexivity; try (exfalso; lia); f_equal; lia.
  - exists m1, e1. split; [exact H1 | split].
    + intros Hodd. rewrite Hm1.
      destruct (Z.le_gt_cases 0 n) as [Hn | Hn].
      * pose proof (Z.bit0_mod n) as Hbit. rewrite Z.bit0_odd, Hodd in Hbit.
        pose proof (Z.div_mod n 2 ltac:(lia)). cbn [Z.b2z] in Hbit.
        zcases; try reflexivity. f_equal. lia.
      * pose proof (Z.mul_succ_div_gt n 2 ltac:(lia)).
        zcases; try reflexivity; exfalso; lia.
    + unfold buffer_bytes. cbn [mem set_mem].
      apply nth_ext with (d := 0) (d' := 0).
      * rewrite length_rev, !length_map. reflexivity.
      * intros i Hi. rewrite length_map, length_seq in Hi.
        rewrite rev_nth by (rewrite length_map, length_seq; exact Hi).
        rewrite length_map, length_seq.
        rewrite !nth_map_seq by lia.
        rewrite Hm1. zcases; try (exfalso; lia). f_equal. lia.
Qed.

(** ** The send operation *)

Lemma printMBACommandError_spec result w :
  printMBACommandError result w
  = Some (tt, w, [Text (error_message result); NewLine]).
Proof.
  unfold printMBACommandError, error_message.
  repeat match goal with
         | |- context [if ?c then _ else _] => destruct c
         end; reflexivity.
Qed.

Lemma write_data_loop_spec k : forall i d w,
  write_data_loop k i d w
  = Some (tt,
          set_tx (tx_address w)
                 (tx_buffer w ++ map (fun j => to_uint8 (nth j d 0)) (seq i k)) w,
          []).
Proof.
  induction k as [|k IH]; intros i d w.
  - cbn. rewrite app_nil_r. destruct w; reflexivity.
  - cbn [write_data_loop]. erewrite bind_Some by reflexivity.
    rewrite IH. cbn [seq map tx_address tx_buffer set_tx].
    rewrite <- app_assoc. reflexivity.
Qed.

Lemma sendMBACommand_spec address c w :
  sendMBACommand address c w
  = Some (bus_status w 0%nat =? 0, after_send address w,
          send_events address c (bus_status w 0%nat)).
Proof.
  unfold sendMBACommand.
  do 5 (erewrite bind_Some by reflexivity).
  erewrite bind_Some by apply write_data_loop_spec.
  do 2 (erewrite bind_Some by reflexivity).
  cbn [bus_status set_tx tx_address tx_buffer next_status set_clock clock
       rx_buffer mem reply app].
  unfold send_events, after_send.
  destruct (bus_status w 0%nat =? 0).
  - reflexivity.
  - erewrite bind_Some by apply printMBACommandError_spec. reflexivity.
Qed.


(** ** Calls that emit events of one kind *)

Lemma emits_only_ret {A : Type} p (x : A) : emits_only p (ret x).
Proof. intros w. apply returns_ret. reflexivity. Qed.

Lemma emits_only_bind {A B : Type} p (m : M A) (f : A -> M B) :
  emits_only p m -> (forall x, emits_only p (f x)) -> emits_only p (bind m f).
Proof.
  intros Hm Hf w. apply returns_bind.
  eapply returns_weaken; [apply Hm |]. cbn beta. intros x w1 e1 H1.
  eapply returns_weaken; [apply Hf |]. cbn beta. intros y w2 e2 H2.
  rewrite forallb_app, H1, H2. reflexivity.
Qed.

Lemma emits_only_emit p ev : forallb p ev = true -> emits_only p (emit ev).
Proof. intros H w. apply returns_emit. exact H. Qed.

Lemma emits_only_load p i : emits_only p (load i).
Proof. intros w. exists (mem w i), w, []. split; reflexivity. Qed.

Lemma emits_only_if {A : Type} p (b : bool) (m1 m2 : M A) :
  emits_only p m1 -> emits_only p m2 -> emits_only p (if b then m1 else m2).
Proof. destruct b; auto. Qed.

Lemma emits_only_store i v : emits_only is_store (store i v).
Proof. intros w. eexists _, _, _. split; reflexivity. Qed.

Lemma emits_only_Wire_read p : emits_only p Wire_read.
Proof.
  intros w. unfold returns, Wire_read. destruct (rx_buffer w);
    eexists _, _, _; split; reflexivity.
Qed.

(** Serial output is made of prints: a step that is a print, a load, a
    return or a choice between such steps. *)
Ltac prints :=
  repeat first
    [ apply emits_only_ret
    | apply emits_only_load
    | apply emits_only_emit; reflexivity
    | apply emits_only_if
    | apply emits_only_bind; [| intros ? ]
    | assumption ].

Lemma print_hex_loop_prints k : forall i, emits_only is_serial (print_hex_loop k i).
Proof.
  induction k as [|k IH]; intros i; cbn [print_hex_loop];
    unfold Serial_print, Serial_print_hex; prints. apply IH.
Qed.

Lemma print_dec_loop_prints k : forall i, emits_only is_serial (print_dec_loop k i).
Proof.
  induction k as [|k IH]; intros i; cbn [print_dec_loop];
    unfold Serial_print, Serial_print_dec; prints. apply IH.
Qed.

Lemma print_bits_prints k v : emits_only is_serial (print_bits k v).
Proof.
  induction k as [|k IH]; cbn [print_bits]; unfold Serial_print_dec; prints.
Qed.

Lemma print_bin_loop_prints k : forall i, emits_only is_serial (print_bin_loop k i).
Proof.
  induction k as [|k IH]; intros i; cbn [print_bin_loop];
    unfold Serial_print; prints; try apply print_bits_prints; apply IH.
Qed.

Lemma print_txt_loop_prints k : forall i, emits_only is_serial (print_txt_loop k i).
Proof.
  induction k as [|k IH]; intros i; cbn [print_txt_loop];
    unfold Serial_print, Serial_print_char; prints. apply IH.
Qed.

Lemma print_data_loop_prints k : forall i d, emits_only is_serial (print_data_loop k i d).
Proof.
  induction k as [|k IH]; intros i d; cbn [print_data_loop];
    unfold Serial_print, Serial_print_hex; prints. apply IH.
Qed.

Lemma copy_loop_stores k : forall i, emits_only is_store (copy_loop k i).
Proof.
  induction k as [|k IH]; intros i; cbn [copy_loop].
  - apply emits_only_ret.
  - apply emits_only_bind; [apply emits_only_Wire_read | intros b].
    apply emits_only_bind; [apply emits_only_store | intros _]. apply IH.
Qed.

Lemma reverseBufferEndian_stores n : emits_only is_store (reverseBufferEndian n).
Proof.
  intros w. destruct (reverseBufferEndian_spec n w) as (m' & ev & H & Hst & _).
  exists tt, (set_mem m' w), ev. split; [exact H |].
  rewrite <- Hst. unfold stores_of. apply forallb_forall.
  intros e He. apply filter_In in He. tauto.
Qed.

(** *** What the kinds of events imply *)

Lemma serial_has_no_settle ev : forallb is_serial ev = true -> no_settle ev.
Proof.
  intros H Hin. rewrite forallb_forall in H. apply H in Hin. discriminate.
Qed.

Lemma stores_have_no_settle ev : forallb is_store ev = true -> no_settle ev.
Proof.
  intros H Hin. rewrite forallb_forall in H. apply H in Hin. discriminate.
Qed.

Lemma stores_are_silent ev : forallb is_store ev = true -> serial_of ev = [].
Proof.
  induction ev as [|e ev IH]; cbn; [reflexivity |].
  intros H. apply andb_prop in H as [He Hev].
  destruct e; try discriminate. cbn. auto.
Qed.

Lemma returns_and {A : Type} (m : M A) w (P Q : A -> World -> list Event -> Prop) :
  returns m w P -> returns m w Q ->
  returns m w (fun x w' ev => P x w' ev /\ Q x w' ev).
Proof.
  intros (x & w1 & e1 & H1 & HP) (y & w2 & e2 & H2 & HQ).
  rewrite H1 in H2. inversion H2; subst.
  exists y, w2, e2. auto.
Qed.

(** A primitive step, and a step whose behaviour is given by a lemma. *)
Ltac prim :=
  apply returns_bind; eexists _, _, _; split; [reflexivity | cbn beta].
Ltac call L :=
  apply returns_bind; eapply returns_weaken; [apply L | cbn beta].

Lemma ends_line_last pre : ends_line (pre ++ [NewLine]).
Proof. exists (serial_of pre). rewrite serial_of_app. reflexivity. Qed.

(** *** utility.cpp prints whole lines *)

Lemma printBuffer_spec n f w :
  returns (printBuffer n f) w
          (fun _ _ ev => forallb is_serial ev = true /\ ends_line ev).
Proof.
  apply returns_and.
  - revert w. unfold printBuffer, Serial_print, Serial_newline.
    destruct f; prints;
      first [ apply print_hex_loop_prints | apply print_dec_loop_prints
            | apply print_bin_loop_prints | apply print_txt_loop_prints ].
  - unfold printBuffer. prim.
    call print_hex_loop_prints. intros _ w1 e1 _.
    prim.
    destruct f.
    + prim. call print_dec_loop_prints. intros _ w2 e2 _.
      apply returns_emit. rewrite !app_assoc. apply ends_line_last.
    + apply returns_ret. rewrite !app_assoc, app_nil_r. apply ends_line_last.
    + prim. call print_bin_loop_prints. intros _ w2 e2 _.
      apply returns_emit. rewrite !app_assoc. apply ends_line_last.
    + prim. call print_txt_loop_prints. intros _ w2 e2 _.
      apply returns_emit. rewrite !app_assoc. apply ends_line_last.
    + apply returns_ret. rewrite !app_assoc, app_nil_r. apply ends_line_last.
Qed.

Lemma printMBACommandInfo_spec c w :
  returns (printMBACommandInfo c) w
          (fun _ _ ev => forallb is_serial ev = true /\ ends_line ev).
Proof.
  apply returns_and.
  - revert w. unfold printMBACommandInfo, Serial_print, Serial_print_hex,
      Serial_newline.
    prints. apply print_data_loop_prints.
  - unfold printMBACommandInfo.
    assert (Hd : emits_only is_serial
                   (if dataLength c >? 0
                    then Serial_print " DATA=0x";;
                         print_data_loop (Z.to_nat (dataLength c)) 0 (data c)
                    else ret tt)).
    { unfold Serial_print. prints. apply print_data_loop_prints. }
    assert (Hz : forall (b : bool),
               emits_only is_serial (if b then Serial_print "0" else ret tt)).
    { intros b. unfold Serial_print. prints. }
    prim. prim. call Hz. intros _ w1 e1 _. prim. prim.
    call Hz. intros _ w2 e2 _. prim.
    call Hz. intros _ w3 e3 _. prim.
    call Hd. intros _ w4 e4 _.
    apply returns_emit. rewrite !app_assoc. apply ends_line_last.
Qed.

Lemma read_bit_prints n count b : emits_only is_serial (read_bit n count b).
Proof. unfold read_bit. prints. Qed.

Lemma printBitField_prints n count b :
  emits_only is_serial (printBitField n count b).
Proof.
  unfold printBitField, Serial_print, Serial_print_dec, Serial_println.
  prints; try apply read_bit_prints.
  - destruct (inactiveValue b); prints.
  - destruct (description b); prints.
Qed.

Lemma printBitField_ends_line n count b w :
  description b <> None ->
  returns (printBitField n count b) w (fun _ _ ev => ends_line ev).
Proof.
  intros Hd. unfold printBitField.
  call read_bit_prints. intros bitSet w1 e1 _.
  do 5 prim.
  assert (Hv : emits_only is_serial
                 (if bitSet
                  then Serial_print "1 = ";; Serial_print (activeValue b)
                  else Serial_print "0 = ";;
                       match inactiveValue b with
                       | Some t => Serial_print t
                       | None => Serial_print "Inactive"
                       end)).
  { unfold Serial_print. prints. destruct (inactiveValue b); prints. }
  call Hv. intros _ w2 e2 _.
  destruct (description b) as [d |]; [| contradiction].
  prim. apply returns_emit.
  change [Text d; NewLine] with ([Text d] ++ [NewLine]).
  rewrite !app_assoc. apply ends_line_last.
Qed.

Lemma printBitFields_loop_prints k : forall i n table count,
  emits_only is_serial (printBitFields_loop k i n table count).
Proof.
  induction k as [|k IH]; intros i n table count; cbn [printBitFields_loop].
  - apply emits_only_ret.
  - apply emits_only_bind; [apply printBitField_prints | intros _; apply IH].
Qed.

Lemma printBitFields_loop_ends_line k : forall i n table count w,
  (forall j, (j < i + S k)%nat ->
             description (nth j table unspecified_bit) <> None) ->
  returns (printBitFields_loop (S k) i n table count) w
          (fun _ _ ev => ends_line ev).
Proof.
  induction k as [|k IH]; intros i n table count w Hd.
  - cbn [printBitFields_loop].
    call printBitField_ends_line; [apply Hd; lia |]. intros _ w1 e1 H1.
    apply returns_ret. rewrite app_nil_r. exact H1.
  - change (printBitFields_loop (S (S k)) i n table count)
      with (printBitField n count (nth i table unspecified_bit);;
            printBitFields_loop (S k) (S i) n table count).
    call printBitField_prints. intros _ w1 e1 _.
    eapply returns_weaken;
      [apply IH; intros j Hj; apply Hd; lia |].
    cbn beta. intros _ w2 e2 H2. apply ends_line_app. exact H2.
Qed.

Lemma printBitFields_spec n table count w :
  0 < count -> (Z.to_nat count <= List.length table)%nat ->
  Forall (fun b => description b <> None) table ->
  returns (printBitFields n table count) w
          (fun _ _ ev => forallb is_serial ev = true /\ ends_line ev).
Proof.
  intros Hc Hlen Hall. apply returns_and.
  - apply printBitFields_loop_prints.
  - unfold printBitFields.
    destruct (Z.to_nat count) as [|k] eqn:E; [lia |].
    apply printBitFields_loop_ends_line.
    intros j Hj. rewrite Forall_forall in Hall. apply Hall.
    apply nth_In. lia.
Qed.

(** ** The receive operation *)

Lemma elapsed_delay start ms w :
  elapsed start (set_clock (clock w + ms) w) = to_uint32 (elapsed start w + ms).
Proof.
  unfold elapsed, to_uint32. cbn [clock set_clock].
  rewrite Zminus_mod_idemp_l, (Zminus_mod_idemp_l (clock w)), Zplus_mod_idemp_l.
  f_equal. lia.
Qed.

Lemma elapsed_start w : elapsed (to_uint32 (clock w)) w = 0.
Proof. unfold elapsed. rewrite Z.sub_diag. reflexivity. Qed.

Ltac concrete_no_settle :=
  let H := fresh in
  intros H; cbn in H;
  repeat match goal with
         | H : _ \/ _ |- _ => destruct H as [H | H]
         end; try discriminate; try contradiction.

(** The loop returns when it has a turn left for each 10 ms that remain
    until the timeout, and one more. *)
Lemma wait_loop_returns fuel : forall len start w,
  (0 < fuel)%nat ->
  10000 < elapsed start w + 10 * (Z.of_nat fuel - 1) ->
  returns (wait_loop fuel len start) w
          (fun r _ ev =>
             no_settle ev /\
             (r = true -> serial_of ev = []) /\
             (r = false -> ends_line ev)).
Proof.
  induction fuel as [|fuel IH]; intros len start w Hpos Hfuel; [lia |].
  cbn [wait_loop]. prim.
  destruct ((Z.of_nat (List.length (rx_buffer w)) <? len) &&
            (Z.of_nat (List.length (rx_buffer w)) <? SOFTWAREWIRE_BUFSIZE - 1)).
  - prim. fold (elapsed start w). rewrite Z.gtb_ltb.
    destruct (Z.ltb_spec 10000 (elapsed start w)) as [Hout | Hin].
    + do 4 prim. apply returns_ret. split; [| split].
      * concrete_no_settle.
      * discriminate.
      * intros _. eexists. cbn. 
        match goal with |- ?a :: ?b :: ?c :: [NewLine] = _ =>
          change (a :: b :: c :: [NewLine]) with ([a; b; c] ++ [NewLine]) end.
        reflexivity.
    + prim.
      assert (He : elapsed start (set_clock (clock w + 10) w)
                   = elapsed start w + 10).
      { rewrite elapsed_delay. unfold to_uint32. apply Z.mod_small.
        unfold elapsed, to_uint32 in *.
        pose proof (Z.mod_pos_bound (clock w mod 4294967296 - start) 4294967296).
        lia. }
      eapply returns_weaken.
      * apply IH; [lia | rewrite He; lia].
      * cbn beta. intros r w' ev (Hns & Ht & Hf).
        split; [| split].
        -- repeat apply no_settle_app; try assumption; concrete_no_settle.
        -- intros Hr. cbn. auto.
        -- intros Hr. cbn. apply (ends_line_app [Delay 10]). auto.
  - apply returns_ret. split; [apply no_settle_nil | split; [reflexivity | discriminate]].
Qed.

Lemma Wire_read_silent w : returns Wire_read w (fun _ _ ev => ev = []).
Proof.
  unfold returns, Wire_read. destruct (rx_buffer w);
    eexists _, _, _; split; reflexivity.
Qed.

Lemma printMBACommandError_returns result w :
  returns (printMBACommandError result) w
          (fun _ _ ev => ev = [Text (error_message result); NewLine]).
Proof.
  eexists _, _, _. split; [apply printMBACommandError_spec | reflexivity].
Qed.

(** Drop the events in front of [e]. *)
Ltac strip_to e :=
  repeat lazymatch goal with
         | |- ends_line (e ++ _) => fail
         | |- ends_line (_ ++ _) => apply ends_line_app
         end.

Lemma warning_prints (b : bool) (m : M unit) :
  emits_only is_serial m -> emits_only is_serial (if b then m else ret tt).
Proof. intros H. destruct b; [exact H | apply emits_only_ret]. Qed.

(** The receive operation always returns; whatever the outcome, it never
    waits 100 ms and its serial output ends with a complete line. *)
Lemma readMBACommand_returns address c bufferSize w :
  returns (readMBACommand address c bufferSize) w
          (fun _ _ ev => no_settle ev /\ ends_line ev).
Proof.
  unfold readMBACommand.
  assert (Hwarn : emits_only is_serial
            (if bufferSize >? SOFTWAREWIRE_BUFSIZE
             then Serial_print "⚠️  Warning: bufferSize exceeds Wire buffer max (";;
                  Serial_print_dec SOFTWAREWIRE_BUFSIZE;;
                  Serial_println " bytes)."
             else ret tt)).
  { unfold Serial_print, Serial_print_dec, Serial_println. prints. }
  call Hwarn. intros _ w1 e1 H1. apply serial_has_no_settle in H1.
  do 3 prim.
  match goal with |- context [negb ?b] => destruct b end; cbn [negb].
  - (* the bus accepted the read request *)
    do 2 prim.
    match goal with |- context [if ?b then _ else _] => destruct b end.
    + prim. apply returns_ret. split.
      * repeat apply no_settle_app; try assumption; concrete_no_settle.
      * apply ends_line_app. exists [Text "No data available to read"].
        reflexivity.
    + call Wire_read_silent. intros b w2 e2 ->.
      prim.
      call wait_loop_returns.
      { unfold wait_fuel. lia. }
      { unfold wait_fuel.
        match goal with |- context [elapsed (to_uint32 (clock ?w)) ?w'] =>
          change (elapsed (to_uint32 (clock w)) w')
            with (elapsed (to_uint32 (clock w')) w') end.
        rewrite elapsed_start. lia. }
      intros complete w3 e3 (Hns & Ht & Hf).
      destruct complete; cbn [negb].
      * assert (Hlen : forall len, emits_only is_serial
            (if len >? bufferSize
             then Serial_print "⚠️  Warning: Block length (";;
                  Serial_print_dec len;;
                  Serial_print " bytes) exceeds buffer limit (";;
                  Serial_print_dec bufferSize;;
                  Serial_println " bytes). Truncation may occur."
             else Serial_print "Response length: ";;
                  Serial_print_dec len;;
                  Serial_println " bytes")).
        { intros len. unfold Serial_print, Serial_print_dec, Serial_println.
          prints. }
        call Hlen. intros _ w4 e4 H4. apply serial_has_no_settle in H4.
        prim.
        call copy_loop_stores. intros _ w5 e5 H5.
        call printBuffer_spec. intros _ w6 e6 (H6 & H6').
        call reverseBufferEndian_stores. intros _ w7 e7 H7.
        apply returns_ret. split.
        -- repeat apply no_settle_app; try assumption;
             try (apply serial_has_no_settle; assumption);
             try (apply stores_have_no_settle; assumption);
             concrete_no_settle.
        -- strip_to e6.
           apply ends_line_silent; [exact H6' |].
           rewrite app_nil_r. apply stores_are_silent. exact H7.
      * apply returns_ret. split.
        -- repeat apply no_settle_app; try assumption; concrete_no_settle.
        -- strip_to e3. rewrite app_nil_r. auto.
  - call printMBACommandError_returns. intros _ w2 e2 ->.
    apply returns_ret. split.
    + repeat apply no_settle_app; try assumption; concrete_no_settle.
    + apply ends_line_app. eexists [Text _]. reflexivity.
Qed.

(** ** Catalogue lookup *)

Lemma strcmp_eq a : forall b, strcmp a b = 0 <-> a = b.
Proof.
  induction a as [|c a IH]; intros [|d b]; cbn [strcmp].
  - tauto.
  - split; discriminate.
  - split; discriminate.
  - destruct (Ascii.eqb_spec c d) as [-> | Hne].
    + rewrite IH. split; [intros ->; reflexivity | intros H; inversion H; reflexivity].
    + split.
      * destruct (nat_of_ascii c <? nat_of_ascii d)%nat; discriminate.
      * intros H. inversion H. contradiction.
Qed.

Lemma lookup_loop_Some table : forall n c,
  lookup_loop table n = Some c <->
  exists before after,
    table = before ++ c :: after /\ name c = n /\
    Forall (fun d => name d <> n) before.
Proof.
  induction table as [|x table IH]; intros n c; cbn [lookup_loop].
  - split; [discriminate | intros ([|? ?] & ? & H & _); discriminate].
  - destruct (Z.eqb_spec (strcmp (name x) n) 0) as [E | E];
      rewrite strcmp_eq in E.
    + split.
      * intros H. inversion H; subst. exists [], table. auto.
      * intros ([|y before] & after & Ht & Hn & Hb).
        -- inversion Ht. reflexivity.
        -- inversion Ht; subst. inversion Hb; subst. contradiction.
    + rewrite IH. split.
      * intros (before & after & -> & Hn & Hb).
        exists (x :: before), after. auto.
      * intros ([|y before] & after & Ht & Hn & Hb).
        -- inversion Ht; subst. contradiction.
        -- inversion Ht; subst. inversion Hb; subst.
           exists before, after. auto.
Qed.

Lemma lookup_loop_None table : forall n,
  lookup_loop table n = None <-> Forall (fun d => name d <> n) table.
Proof.
  induction table as [|x table IH]; intros n; cbn [lookup_loop].
  - split; auto.
  - destruct (Z.eqb_spec (strcmp (name x) n) 0) as [E | E];
      rewrite strcmp_eq in E.
    + split; [discriminate | intros H; inversion H; contradiction].
    + rewrite IH. split; [auto | intros H; inversion H; assumption].
Qed.

Lemma distinct_strings_NoDup l : distinct_strings l = true -> NoDup l.
Proof.
  induction l as [|x l IH]; cbn [distinct_strings]; intros H.
  - constructor.
  - apply andb_prop in H as [Hx Hl]. constructor; [| auto].
    intros Hin. apply negb_true_iff in Hx.
    assert (existsb (String.eqb x) l = true); [| congruence].
    apply existsb_exists. exists x. split; [exact Hin | apply String.eqb_refl].
Qed.

Lemma distinctb_NoDup l : distinctb l = true -> NoDup l.
Proof.
  induction l as [|x l IH]; cbn [distinctb]; intros H.
  - constructor.
  - apply andb_prop in H as [Hx Hl]. constructor; [| auto].
    intros Hin. apply negb_true_iff in Hx.
    assert (existsb (Z.eqb x) l = true); [| congruence].
    apply existsb_exists. exists x. split; [exact Hin | apply Z.eqb_refl].
Qed.

(** No two names of the catalogue are equal up to case. *)
Lemma catalogue_names_distinct_up_to_case :
  NoDup (map (fun c => lower (name c)) MBACommandsInfo).
Proof. apply distinct_strings_NoDup. vm_compute. reflexivity. Qed.

Lemma NoDup_map_inj {A B : Type} (f : A -> B) l x y :
  NoDup (map f l) -> In x l -> In y l -> f x = f y -> x = y.
Proof.
  induction l as [|a l IH]; cbn; intros Hnd Hx Hy Hf; [contradiction |].
  inversion Hnd as [|? ? Hnotin Hnd']; subst.
  destruct Hx as [-> | Hx], Hy as [-> | Hy].
  - reflexivity.
  - exfalso. apply Hnotin. rewrite Hf. apply in_map. exact Hy.
  - exfalso. apply Hnotin. rewrite <- Hf. apply in_map. exact Hx.
  - auto.
Qed.

(** C10. The lookup returns nothing for an absent name; for a name [n] it
    returns the first entry of the catalogue whose name is exactly [n], and
    nothing when no entry has that name; a name that differs from the name
    of an entry, and only in the case of its letters, is not found.  The
    lookup is a function of the name alone: it neither reads nor changes
    the world. *)
Theorem getMBACommandInfoByName_exact_match :
  getMBACommandInfoByName None = None /\
  (forall n c,
     getMBACommandInfoByName (Some n) = Some c <->
     exists before after,
       MBACommandsInfo = before ++ c :: after /\ name c = n /\
       Forall (fun d => name d <> n) before) /\
  (forall n,
     getMBACommandInfoByName (Some n) = None <->
     Forall (fun d => name d <> n) MBACommandsInfo) /\
  (forall n c,
     In c MBACommandsInfo -> n <> name c -> lower n = lower (name c) ->
     getMBACommandInfoByName (Some n) = None) /\
  getMBACommandInfoByName (Some "devicetype") = None /\
  (exists c, getMBACommandInfoByName (Some "DeviceType") = Some c /\
             cmd c = 0x0001).
Proof.
  split; [reflexivity |].
  split; [intros n c; apply lookup_loop_Some |].
  split; [intros n; apply lookup_loop_None |].
  split; [| split; [reflexivity | eexists; split; reflexivity]].
  intros n c Hc Hne Hlow. cbn [getMBACommandInfoByName].
  destruct (lookup_loop MBACommandsInfo n) as [d |] eqn:E; [| reflexivity].
  exfalso. apply lookup_loop_Some in E as (before & after & Ht & Hn & _).
  assert (Hd : In d MBACommandsInfo) by (rewrite Ht; apply in_elt).
  assert (d = c).
  { apply (NoDup_map_inj (fun c => lower (name c)) MBACommandsInfo);
      [apply catalogue_names_distinct_up_to_case | assumption | assumption |].
    cbn beta. rewrite Hn. exact Hlow. }
  subst d. congruence.
Qed.


(** ** The command runner *)

Lemma catalogue_printable : forallb schema_printable MBACommandsInfo = true.
Proof. vm_compute. reflexivity. Qed.

Lemma found_in_catalogue n c :
  getMBACommandInfoByName n = Some c -> In c MBACommandsInfo.
Proof.
  destruct n as [n |]; [| discriminate]. cbn [getMBACommandInfoByName].
  intros H. apply lookup_loop_Some in H as (before & after & Ht & _).
  rewrite Ht. apply in_elt.
Qed.

Lemma settles_app a b : settles b -> settles (a ++ b).
Proof. intros [pre ->]. exists (a ++ pre). rewrite app_assoc. reflexivity. Qed.

Lemma settles_last : settles ([NewLine] ++ [Delay 100] ++ []).
Proof. exists []. reflexivity. Qed.

Lemma ends_blank_line_join a b :
  ends_line a -> serial_of b = [NewLine] -> ends_blank_line (a ++ b).
Proof.
  intros [pre H] Hb. exists pre.
  rewrite serial_of_app, H, Hb, <- app_assoc. reflexivity.
Qed.

Ltac strip_settled :=
  repeat lazymatch goal with
         | |- settles ([NewLine] ++ [Delay 100] ++ []) => fail
         | |- settles (_ ++ _) => apply settles_app
         end;
  apply settles_last.

Ltac strip_blank :=
  rewrite ?app_nil_r; repeat rewrite <- app_assoc;
  repeat lazymatch goal with
         | |- ends_blank_line ([Text _; NewLine] ++ _) => fail
         | |- ends_blank_line ([NewLine] ++ _) => fail
         | |- ends_blank_line (_ ++ _) => apply ends_blank_line_app
         end.

Ltac quiet :=
  repeat apply no_settle_app; try assumption;
  try (apply serial_has_no_settle; assumption);
  try (apply stores_have_no_settle; assumption);
  try concrete_no_settle.

(** C3 (as amended). The runner always returns.  On every return path its
    serial output ends with an empty line; when it returns [true] the last
    thing it does is to write that line end and wait 100 ms; when it returns
    [false] (command not found, send failure, read failure) it has not
    waited 100 ms at all. *)
Theorem runMBACommand_blank_line_and_settle address cmdName w :
  returns (runMBACommand address cmdName) w
          (fun r _ ev =>
             ends_blank_line ev /\
             (r = true -> settles ev) /\
             (r = false -> no_settle ev)).
Proof.
  unfold runMBACommand.
  destruct (getMBACommandInfoByName cmdName) as [c |] eqn:Elookup.
  - pose proof (found_in_catalogue _ _ Elookup) as Hin.
    pose proof catalogue_printable as Hp.
    rewrite forallb_forall in Hp. specialize (Hp c Hin).
    prim.
    call printMBACommandInfo_spec. intros _ w1 e1 (Hs1 & Hl1).
    apply returns_bind. eexists _, _, _.
    split; [apply sendMBACommand_spec | cbn beta].
    unfold send_events.
    destruct (bus_status w1 0%nat =? 0); cbn [negb].
    + (* sent *)
      destruct (same_literal (access c) "W"); cbn [negb].
      * (* write-only: no read phase *)
        prim. do 2 prim. apply returns_ret. split; [| split].
        -- rewrite app_assoc. apply ends_blank_line_join; [| reflexivity].
           apply ends_line_app. exact Hl1.
        -- intros _. strip_settled.
        -- discriminate.
      * (* read phase *)
        apply returns_bind. unfold read_phase. apply returns_bind.
        eapply returns_weaken; [apply readMBACommand_returns | cbn beta].
        intros ok w2 e2 (Hns2 & Hl2).
        destruct ok; cbn [negb].
        -- assert (Hdecode : returns
                     match bitfields c with
                     | Some table =>
                         if bitfieldCount c >? 0
                         then printBitFields (SOFTWAREWIRE_BUFSIZE - 2) table
                                             (bitfieldCount c);;
                              ret None
                         else ret None
                     | None => ret (@None bool)
                     end w2
                     (fun r _ ev => r = None /\ forallb is_serial ev = true /\
                                    (ev = [] \/ ends_line ev))).
           { unfold schema_printable in Hp.
             destruct (bitfields c) as [table |].
             - apply andb_prop in Hp as [Hlen Hdesc].
               destruct (Z.gtb_spec (bitfieldCount c) 0) as [Hc | Hc].
               + call printBitFields_spec.
                 * lia.
                 * apply Nat.leb_le. exact Hlen.
                 * apply Forall_forall. intros b Hb.
                   rewrite forallb_forall in Hdesc. apply Hdesc in Hb.
                   unfold described in Hb. destruct (description b); discriminate.
                 * intros _ w3 e3 (Hs3 & Hl3). apply returns_ret.
                   rewrite app_nil_r. auto.
               + apply returns_ret. auto.
             - apply returns_ret. auto. }
           eapply returns_weaken; [apply Hdecode | cbn beta].
           intros r w3 e3 (-> & Hs3 & Hl3).
           do 2 prim. apply returns_ret. split; [| split].
           ++ do 3 apply ends_blank_line_app.
              apply ends_blank_line_join; [| reflexivity].
              destruct Hl3 as [-> | Hl3].
              ** rewrite app_nil_r. exact Hl2.
              ** apply ends_line_app. exact Hl3.
           ++ intros _. strip_settled.
           ++ discriminate.
        -- do 2 prim. apply returns_ret. apply returns_ret. split; [| split].
           ++ strip_blank. exists [Text "Failed to read command response"]. reflexivity.
           ++ discriminate.
           ++ intros _. quiet.
    + do 2 prim. apply returns_ret. split; [| split].
      * strip_blank. exists [Text "Failed to send command."]. reflexivity.
      * discriminate.
      * intros _. quiet.
  - prim.
    assert (Hptr : emits_only is_serial (Serial_print_ptr cmdName)).
    { destruct cmdName; unfold Serial_print_ptr, Serial_print; prints. }
    call Hptr. intros _ w1 e1 H1.
    do 2 prim. apply returns_ret. split; [| split].
    + strip_blank. exists []. reflexivity.
    + discriminate.
    + intros _. quiet.
Qed.

(** ** The write frame *)

Lemma catalogue_frames : forallb frame_as_specified MBACommandsInfo = true.
Proof. vm_compute. reflexivity. Qed.

Lemma frame_of_catalogue c :
  In c MBACommandsInfo -> dataLength c <= 8 /\ frame_of c = write_frame c.
Proof.
  intros Hin. pose proof catalogue_frames as H.
  rewrite forallb_forall in H. apply H in Hin.
  unfold frame_as_specified in Hin. apply andb_prop in Hin as [Hlen Hframe].
  split; [apply Z.leb_le; exact Hlen |].
  destruct (list_eq_dec Z.eq_dec (frame_of c) (write_frame c));
    [assumption | discriminate].
Qed.

(** C7. Every entry of the catalogue has a payload of at most 8 bytes, and
    sending it puts on the bus, for the given address and with a stop
    condition, the frame [0x44; 2 + payload length; low byte of the
    sub-command; high byte of the sub-command] followed by the payload bytes
    in catalogue order; the result is the success of the bus. *)
Theorem sendMBACommand_write_frame c address w :
  In c MBACommandsInfo ->
  dataLength c <= 8 /\
  exists w' rest,
    sendMBACommand address c w
    = Some (bus_status w 0%nat =? 0, w',
            Transmit address
              ([0x44; 2 + dataLength c; cmd c mod 256; cmd c / 256] ++
               firstn (Z.to_nat (dataLength c)) (data c)) true
            :: Delay 20 :: rest) /\
    forallb is_serial rest = true.
Proof.
  intros Hin. destruct (frame_of_catalogue c Hin) as [Hlen Hframe].
  split; [exact Hlen |].
  exists (after_send address w),
         (if bus_status w 0%nat =? 0 then []
          else [Text (error_message (bus_status w 0%nat)); NewLine]).
  split.
  - rewrite sendMBACommand_spec. unfold send_events.
    rewrite Hframe. reflexivity.
  - destruct (bus_status w 0%nat =? 0); reflexivity.
Qed.

Lemma sendMBACommand_write_frame_witness :
  In ClearPF2_entry MBACommandsInfo /\
  exists w' rest,
    sendMBACommand 0x0B ClearPF2_entry (quiet_bus [])
    = Some (true, w',
            Transmit 0x0B [0x44; 6; 0x62; 0x40; 0x01; 0x23; 0x45; 0x67] true
            :: Delay 20 :: rest).
Proof.
  assert (Hin : In ClearPF2_entry MBACommandsInfo)
    by (do 18 right; left; reflexivity).
  split; [exact Hin |].
  destruct (sendMBACommand_write_frame ClearPF2_entry 0x0B (quiet_bus []) Hin)
    as (_ & w' & rest & H & _).
  exists w', rest. exact H.
Defined.

(** ** The tables *)

Lemma schema_okb_sound c : schema_okb c = true -> schema_ok c.
Proof.
  unfold schema_okb, schema_ok. destruct (bitfields c) as [table |]; [| auto].
  intros H. apply andb_prop in H as [Hd Hc]. split.
  - apply distinctb_NoDup. exact Hd.
  - apply Z.eqb_eq. exact Hc.
Qed.

(** C9. In every table that an entry of the catalogue refers to, the bit
    indices are pairwise distinct and the entry declares as many bits as the
    table has entries; the tables referred to are the six of [bqcmd.h]. *)
Theorem schemas_distinct_bits_and_declared_count :
  Forall schema_ok MBACommandsInfo /\
  map bitfields (filter has_schema MBACommandsInfo)
  = [Some safetyAlertBits; Some safetyStatusBits; Some pfAlertBits;
     Some pfStatusBits; Some operationStatusBits;
     Some ManufacturingStatusBits].
Proof.
  split; [| reflexivity].
  apply Forall_forall. intros c Hin. apply schema_okb_sound.
  revert c Hin. apply forallb_forall. vm_compute. reflexivity.
Qed.

(** ** Write-only commands *)

Lemma keeps_world_ret {A : Type} (x : A) : keeps_world (ret x).
Proof. intros w y w' ev H. inversion H. reflexivity. Qed.

Lemma keeps_world_emit e : keeps_world (emit e).
Proof. intros w y w' ev H. inversion H. reflexivity. Qed.

Lemma keeps_world_bind {A B : Type} (m : M A) (f : A -> M B) :
  keeps_world m -> (forall x, keeps_world (f x)) -> keeps_world (bind m f).
Proof.
  intros Hm Hf w y w' ev H. unfold bind in H.
  destruct (m w) as [[[x w1] e1] |] eqn:E1; [| discriminate].
  destruct (f x w1) as [[[y' w2] e2] |] eqn:E2; [| discriminate].
  inversion H; subst. apply Hm in E1. apply Hf in E2. congruence.
Qed.

Lemma keeps_world_if {A : Type} (b : bool) (m1 m2 : M A) :
  keeps_world m1 -> keeps_world m2 -> keeps_world (if b then m1 else m2).
Proof. destruct b; auto. Qed.

Lemma print_data_loop_keeps_world k : forall i d,
  keeps_world (print_data_loop k i d).
Proof.
  induction k as [|k IH]; intros i d; cbn [print_data_loop].
  - apply keeps_world_ret.
  - repeat first [ apply keeps_world_bind; [| intros ?]
                 | apply keeps_world_if
                 | apply keeps_world_emit
                 | apply keeps_world_ret
                 | apply IH ].
Qed.

Lemma printMBACommandInfo_keeps_world c : keeps_world (printMBACommandInfo c).
Proof.
  unfold printMBACommandInfo.
  repeat first [ apply keeps_world_bind; [| intros ?]
               | apply keeps_world_if
               | apply keeps_world_emit
               | apply keeps_world_ret
               | apply print_data_loop_keeps_world ].
Qed.

Lemma catalogue_names_distinct : NoDup (map name MBACommandsInfo).
Proof. apply distinct_strings_NoDup. vm_compute. reflexivity. Qed.

Lemma lookup_own_name c :
  In c MBACommandsInfo -> getMBACommandInfoByName (Some (name c)) = Some c.
Proof.
  intros Hin. cbn [getMBACommandInfoByName]. apply lookup_loop_Some.
  destruct (in_split _ _ Hin) as (before & after & Ht).
  exists before, after. split; [exact Ht | split; [reflexivity |]].
  pose proof catalogue_names_distinct as Hnd. rewrite Ht in Hnd.
  rewrite map_app in Hnd. cbn [map] in Hnd.
  apply NoDup_remove_2 in Hnd.
  apply Forall_forall. intros d Hd Heq. apply Hnd.
  apply in_or_app. left. rewrite <- Heq. apply in_map. exact Hd.
Qed.

(** C4. For an entry of the catalogue whose access is write-only, when the
    bus reports no error the runner returns [true]; after the lines that
    announce the command it puts the write frame on the bus, waits 20 ms,
    writes the empty line and waits 100 ms, and does nothing else: no read
    request, no store into the response buffer, no decoding. *)
Theorem runMBACommand_write_only c address w :
  In c MBACommandsInfo -> access c = "W" -> bus_status w 0%nat = 0 ->
  exists w' intro,
    runMBACommand address (Some (name c)) w
    = Some (true, w',
            intro ++
            [Transmit address
               ([0x44; 2 + dataLength c; cmd c mod 256; cmd c / 256] ++
                firstn (Z.to_nat (dataLength c)) (data c)) true;
             Delay 20; NewLine; Delay 100]) /\
    forallb is_serial intro = true /\
    mem w' = mem w /\ rx_buffer w' = rx_buffer w.
Proof.
  intros Hin Haccess Hbus.
  destruct (frame_of_catalogue c Hin) as [_ Hframe].
  destruct (printMBACommandInfo_spec c w) as ([] & w1 & e1 & Hinfo & Hs1 & _).
  assert (Hw1 : w1 = w).
  { apply (printMBACommandInfo_keeps_world c _ _ _ _ Hinfo). }
  subst w1.
  exists (set_clock (clock w + 20 + 100) (after_send address w)),
         (Text "Starting command " :: e1).
  split; [| split; [exact Hs1 | split; reflexivity]].
  unfold runMBACommand. rewrite (lookup_own_name c Hin).
  erewrite bind_Some by reflexivity.
  erewrite bind_Some by exact Hinfo.
  erewrite bind_Some by apply sendMBACommand_spec.
  rewrite Hbus, Haccess. cbn [Z.eqb negb same_literal String.eqb Ascii.eqb Bool.eqb].
  unfold send_events. rewrite Hframe.
  unfold write_frame. reflexivity.
Qed.

Lemma runMBACommand_write_only_witness :
  exists w' intro,
    runMBACommand 0x0B (Some "SealDevice") (quiet_bus [])
    = Some (true, w',
            intro ++ [Transmit 0x0B [0x44; 0x02; 0x30; 0x00] true;
                      Delay 20; NewLine; Delay 100]) /\
    forallb is_serial intro = true.
Proof.
  destruct (runMBACommand_write_only SealDevice_entry 0x0B (quiet_bus []))
    as (w' & intro & H & Hs & _).
  - do 7 right. left. reflexivity.
  - reflexivity.
  - reflexivity.
  - exists w', intro. split; [exact H | exact Hs].
Defined.

(** ** Too few bytes *)

(** C6. When the bus accepts the read request and fewer than 3 bytes are
    then available, the receive operation returns [false] after the line
    that reports that no data is available; it has not waited (the polling
    loop waits 10 ms in each turn), has stored nothing into the buffer and
    leaves the buffer memory and the clock as they were. *)
Theorem readMBACommand_insufficient_data address c bufferSize w :
  bus_status w 0%nat = 0 ->
  (List.length (delivered (to_uint8 bufferSize) w) < 3)%nat ->
  exists w' warning,
    readMBACommand address c bufferSize w
    = Some (false, w',
            warning ++
            [Transmit address [0x44] false;
             Request address (to_uint8 bufferSize);
             Text "No data available to read"; NewLine]) /\
    forallb is_serial warning = true /\
    mem w' = mem w /\ clock w' = clock w.
Proof.
  intros Hbus Hfew.
  exists (set_rx (delivered (to_uint8 bufferSize) w)
                 (next_status (set_tx address [0x44] w))),
         (if bufferSize >? SOFTWAREWIRE_BUFSIZE
          then [Text "⚠️  Warning: bufferSize exceeds Wire buffer max (";
                Dec SOFTWAREWIRE_BUFSIZE; Text " bytes)."; NewLine]
          else []).
  split; [| split; [destruct (bufferSize >? SOFTWAREWIRE_BUFSIZE); reflexivity
                   | split; reflexivity]].
  unfold readMBACommand.
  assert (Hlt : (Z.of_nat (List.length (delivered (to_uint8 bufferSize) w)) <? 3)
                = true) by (apply Z.ltb_lt; lia).
  destruct (bufferSize >? SOFTWAREWIRE_BUFSIZE);
    repeat (erewrite bind_Some by reflexivity);
    cbn [bus_status set_tx next_status]; rewrite Hbus; cbn [Z.eqb negb];
    repeat (erewrite bind_Some by reflexivity);
    cbn [rx_buffer set_rx];
    match goal with
    | |- context [delivered ?q ?w'] =>
        change (delivered q w') with (delivered q w)
    end;
    rewrite Hlt; reflexivity.
Qed.

Lemma readMBACommand_insufficient_data_witness :
  exists w' warning,
    readMBACommand 0x0B DeviceType_entry SOFTWAREWIRE_BUFSIZE
                   (quiet_bus [0x02; 0x01])
    = Some (false, w',
            warning ++
            [Transmit 0x0B [0x44] false; Request 0x0B 32;
             Text "No data available to read"; NewLine]) /\
    mem w' = mem (quiet_bus [0x02; 0x01]).
Proof.
  destruct (readMBACommand_insufficient_data 0x0B DeviceType_entry
              SOFTWAREWIRE_BUFSIZE (quiet_bus [0x02; 0x01]))
    as (w' & warning & H & _ & Hm & _).
  - reflexivity.
  - vm_compute. lia.
  - exists w', warning. split; [exact H | exact Hm].
Defined.

(** ** The DeviceType scenario *)

(** C1 (as amended). For the read command DeviceType, when the bus accepts
    the read request and the device answers [02 01 00 0A 0B], the receive
    operation with the runner's buffer of 32 bytes returns [true]: it stores
    the four bytes that follow the length byte, [01 00 0A 0B], at indices 0
    to 3, prints the first two, and reverses the first [len = 2] bytes, so
    that the buffer starts with [00 01 0A 0B]; the rest of the memory is as
    it was. *)
Theorem readMBACommand_DeviceType_response address w :
  bus_status w 0%nat = 0 ->
  reply w = [0x02; 0x01; 0x00; 0x0A; 0x0B] ->
  exists w',
    readMBACommand address DeviceType_entry SOFTWAREWIRE_BUFSIZE w
    = Some (true, w',
            [Transmit address [0x44] false; Request address 32;
             Text "Response length: "; Dec 2; Text " bytes"; NewLine;
             Store 0 0x01; Store 1 0x00; Store 2 0x0A; Store 3 0x0B;
             Text "Data (hex): ";
             Text "0x"; Text "0"; Hex 0x01; Text " ";
             Text "0x"; Text "0"; Hex 0x00; Text " "; NewLine;
             Store 0 0x00; Store 1 0x01]) /\
    buffer_bytes 4 w' = [0x00; 0x01; 0x0A; 0x0B] /\
    forall i, ~ 0 <= i < 4 -> mem w' i = mem w i.
Proof.
  intros Hbus Hreply. destruct w as [clk ta tb rb m bs rp].
  cbn [bus_status reply] in Hbus, Hreply. subst rp.
  exists (mkWorld clk address [] []
            (update 1 1 (update 0 0 (update 3 0x0B (update 2 0x0A
               (update 1 0 (update 0 1 m))))))
            (fun n => bs (S n)) [0x02; 0x01; 0x00; 0x0A; 0x0B]).
  split; [| split].
  - unfold readMBACommand.
    repeat (erewrite bind_Some by reflexivity).
    cbn [bus_status set_tx next_status]. rewrite Hbus. cbn [Z.eqb negb].
    vm_compute. reflexivity.
  - reflexivity.
  - intros i Hi. cbn [mem]. unfold update.
    repeat match goal with
           | |- context [i =? ?k] => destruct (Z.eqb_spec i k); [lia |]
           end.
    reflexivity.
Qed.

Lemma readMBACommand_DeviceType_response_witness :
  exists w',
    readMBACommand 0x0B DeviceType_entry SOFTWAREWIRE_BUFSIZE
                   (quiet_bus [0x02; 0x01; 0x00; 0x0A; 0x0B])
    = Some (true, w',
            [Transmit 0x0B [0x44] false; Request 0x0B 32;
             Text "Response length: "; Dec 2; Text " bytes"; NewLine;
             Store 0 0x01; Store 1 0x00; Store 2 0x0A; Store 3 0x0B;
             Text "Data (hex): ";
             Text "0x"; Text "0"; Hex 0x01; Text " ";
             Text "0x"; Text "0"; Hex 0x00; Text " "; NewLine;
             Store 0 0x00; Store 1 0x01]) /\
    buffer_bytes 4 w' = [0x00; 0x01; 0x0A; 0x0B].
Proof.
  destruct (readMBACommand_DeviceType_response 0x0B
              (quiet_bus [0x02; 0x01; 0x00; 0x0A; 0x0B]))
    as (w' & H & Hb & _).
  - reflexivity.
  - reflexivity.
  - exists w'. split; [exact H | exact Hb].
Defined.

(** C1 as stated fails: on the response [02 01 00 0A 0B] the caller's buffer
    starts with the echoed sub-command, [00 01], not with [0B 0A], and the
    two payload bytes stay in the order in which they came. *)
Lemma DeviceType_response_keeps_echo :
  exists w' ev,
    readMBACommand 0x0B DeviceType_entry SOFTWAREWIRE_BUFSIZE
                   (quiet_bus [0x02; 0x01; 0x00; 0x0A; 0x0B])
    = Some (true, w', ev) /\
    buffer_bytes 4 w' = [0x00; 0x01; 0x0A; 0x0B] /\
    buffer_bytes 2 w' <> [0x0B; 0x0A].
Proof.
  eexists _, _. split; [vm_compute; reflexivity |].
  split; [reflexivity | discriminate].
Qed.

(** ** A block longer than the buffer *)

(** C2 at the failing input. With a buffer of 32 bytes and a response whose
    length byte is 40, followed by 31 bytes, the receive operation warns
    that truncation may occur, returns [true], and has stored at the indices
    39 down to 32, which are past the end of the buffer: the reversal runs
    over [len = 40] bytes. *)
Theorem readMBACommand_oversized_block_overflows address w :
  bus_status w 0%nat = 0 ->
  reply w = 40 :: repeat 0xAA 31 ->
  exists w' ev,
    readMBACommand address DeviceType_entry SOFTWAREWIRE_BUFSIZE w
    = Some (true, w', ev) /\
    In (Text " bytes). Truncation may occur.") ev /\
    filter (fun i => SOFTWAREWIRE_BUFSIZE <=? i) (store_indices ev)
    = [39; 38; 37; 36; 35; 34; 33; 32].
Proof.
  intros Hbus Hreply. destruct w as [clk ta tb rb m bs rp].
  cbn [bus_status reply] in Hbus, Hreply. subst rp.
  destruct (readMBACommand address DeviceType_entry SOFTWAREWIRE_BUFSIZE
              (mkWorld clk ta tb rb m bs (40 :: repeat 0xAA 31)))
    as [[[r w'] ev] |] eqn:E;
    unfold readMBACommand in E;
    repeat (erewrite bind_Some in E by reflexivity);
    cbn [bus_status set_tx next_status] in E; rewrite Hbus in E;
    cbn [Z.eqb negb] in E; vm_compute in E; [| discriminate].
  inversion E; subst. eexists _, _. split; [reflexivity |].
  split; [vm_compute; tauto | vm_compute; reflexivity].
Qed.

Lemma readMBACommand_oversized_block_overflows_witness :
  exists w' ev,
    readMBACommand 0x0B DeviceType_entry SOFTWAREWIRE_BUFSIZE
                   (quiet_bus (40 :: repeat 0xAA 31))
    = Some (true, w', ev) /\
    filter (fun i => SOFTWAREWIRE_BUFSIZE <=? i) (store_indices ev)
    = [39; 38; 37; 36; 35; 34; 33; 32].
Proof.
  destruct (readMBACommand_oversized_block_overflows 0x0B
              (quiet_bus (40 :: repeat 0xAA 31)))
    as (w' & ev & H & _ & Hs).
  - reflexivity.
  - reflexivity.
  - exists w', ev. split; [exact H | exact Hs].
Defined.

Lemma store_indices_app a b :
  store_indices (a ++ b) = store_indices a ++ store_indices b.
Proof. apply flat_map_app. Qed.

(** The first swap of a reversal over at least two bytes stores at the
    last index. *)
Lemma reverseBufferEndian_stores_last n w :
  2 <= n ->
  returns (reverseBufferEndian n) w
          (fun _ _ ev => In (n - 1) (store_indices ev)).
Proof.
  intros Hn. unfold reverseBufferEndian.
  destruct (Z.to_nat (n / 2)) as [|k] eqn:E.
  - pose proof (Z.mul_succ_div_gt n 2 ltac:(lia)).
    pose proof (Z.div_pos n 2 ltac:(lia) ltac:(lia)). lia.
  - cbn [reverse_loop]. do 4 prim.
    destruct (reverse_loop_spec k (0 + 1) n
                (set_mem (update (n - 1 - 0) (mem w 0)
                            (update 0 (mem w (n - 1 - 0)) (mem w))) w))
      as (m' & ev & Hrun & _).
    + lia.
    + pose proof (Z.mul_div_le n 2 ltac:(lia)). lia.
    + exists tt, (set_mem m' w), ev. split; [exact Hrun |].
      cbn. right. left. lia.
Qed.

(** Whenever the length byte exceeds the 32 bytes of the buffer and the 31
    bytes that the bus can still hold have come, the receive operation
    returns [true] after a store at index [len - 1], past the buffer. *)
Lemma readMBACommand_stores_past_capacity address c w len rest :
  bus_status w 0%nat = 0 ->
  delivered (to_uint8 SOFTWAREWIRE_BUFSIZE) w = len :: rest ->
  List.length rest = 31%nat ->
  SOFTWAREWIRE_BUFSIZE < to_uint8 len ->
  returns (readMBACommand address c SOFTWAREWIRE_BUFSIZE) w
          (fun r _ ev => r = true /\ In (to_uint8 len - 1) (store_indices ev)).
Proof.
  intros Hbus Hreply Hrest Hlen. unfold readMBACommand.
  do 4 prim. cbn [bus_status set_tx next_status]. rewrite Hbus.
  cbn [Z.eqb negb]. do 2 prim. cbn [rx_buffer set_rx].
  match goal with
  | |- context [delivered ?q ?w'] =>
      change (delivered q w') with (delivered q w)
  end.
  rewrite Hreply. cbn [List.length].
  rewrite (proj2 (Z.ltb_ge _ 3)) by lia.
  do 2 prim.
  apply returns_bind. unfold wait_fuel. cbn [wait_loop]. prim.
  cbn [rx_buffer set_rx]. rewrite Hrest.
  change (Z.of_nat 31 <? SOFTWAREWIRE_BUFSIZE - 1) with false.
  rewrite andb_false_r.
  apply returns_ret. cbn [negb].
  rewrite Z.gtb_ltb, (proj2 (Z.ltb_lt _ _)) by exact Hlen.
  do 2 prim.
  call copy_loop_stores. intros _ w5 e5 _.
  call printBuffer_spec. intros _ w6 e6 _.
  call reverseBufferEndian_stores_last; [unfold SOFTWAREWIRE_BUFSIZE in *; lia |].
  intros _ w7 e7 H7.
  apply returns_ret. split; [reflexivity |].
  rewrite !store_indices_app.
  repeat lazymatch goal with
         | |- In _ (store_indices e7 ++ _) => fail
         | |- In _ (_ ++ _) => apply in_or_app; right
         end.
  apply in_or_app. left. exact H7.
Qed.

(** ** Bit-field decoding *)

Lemma land_shiftr_testbit v k :
  0 <= k -> negb (Z.land (Z.shiftr v k) 1 =? 0) = Z.testbit v k.
Proof.
  intros Hk. change 1 with (Z.ones 1). rewrite Z.land_ones by lia.
  change (2 ^ 1) with 2. rewrite <- Z.bit0_mod, Z.shiftr_spec by lia.
  rewrite Z.add_0_l. destruct (Z.testbit v k); reflexivity.
Qed.

Lemma read_bit_spec bufferSize count b w :
  read_bit bufferSize count b w
  = Some (bit_value bufferSize ((count / 8 - bitIndex b / 8 - 1) mod 256)
                    (mem w) b, w, []).
Proof.
  unfold read_bit, bit_value, byteIndex, bitInByte, to_uint8.
  assert (Hk : 0 <= bitIndex b mod 8 < 8) by (apply Z.mod_pos_bound; lia).
  rewrite (Z.mod_small (bitIndex b mod 8) 256) by lia.
  destruct ((count / 8 - bitIndex b / 8 - 1) mod 256 <? bufferSize).
  - unfold bind, load, ret. cbn [andb app].
    rewrite land_shiftr_testbit by lia. reflexivity.
  - reflexivity.
Qed.

Lemma printBitField_spec bufferSize count b w :
  printBitField bufferSize count b w
  = Some (tt, w,
          bit_line (bit_value bufferSize
                      ((count / 8 - bitIndex b / 8 - 1) mod 256) (mem w) b) b).
Proof.
  unfold printBitField, bit_line.
  erewrite bind_Some by apply read_bit_spec.
  destruct (bit_value _ _ _ _), (inactiveValue b), (description b);
    reflexivity.
Qed.

Lemma skipn_nth {A : Type} (d : A) (l : list A) : forall i,
  (i < List.length l)%nat -> skipn i l = nth i l d :: skipn (S i) l.
Proof.
  induction l as [|x l IH]; intros i Hi; cbn [List.length] in Hi; [lia |].
  destruct i as [|i]; [reflexivity |].
  cbn [skipn nth]. apply IH. lia.
Qed.

Lemma printBitFields_loop_spec k : forall i bufferSize table count w,
  (i + k <= List.length table)%nat ->
  printBitFields_loop k i bufferSize table count w
  = Some (tt, w,
          flat_map (fun b =>
                      bit_line (bit_value bufferSize
                                  ((count / 8 - bitIndex b / 8 - 1) mod 256)
                                  (mem w) b) b)
                   (firstn k (skipn i table))).
Proof.
  induction k as [|k IH]; intros i bufferSize table count w Hlen.
  - reflexivity.
  - cbn [printBitFields_loop].
    erewrite bind_Some by apply printBitField_spec.
    rewrite IH by lia.
    assert (Hi : (i < List.length table)%nat) by lia.
    rewrite (skipn_nth unspecified_bit table i Hi).
    reflexivity.
Qed.

(** C5 (as amended). The decoder prints for every bit the line of that
    bit, with the value of bit [bitIndex mod 8] of the byte at index
    [(count/8 - bitIndex/8 - 1) mod 256] when that index is below the buffer
    length, and the unset value otherwise; it never fails and leaves the
    world as it is.  The index is [count/8 - bitIndex/8 - 1] itself when
    that is not negative.  In a 32-bit table bit 0 is in byte 3 and bit 31 in
    byte 0; in a 16-bit table bit 0 is in byte 1. *)
Theorem printBitFields_decodes bufferSize table count w :
  (forall b,
     printBitField bufferSize count b w
     = Some (tt, w,
             bit_line (bit_value bufferSize
                         ((count / 8 - bitIndex b / 8 - 1) mod 256)
                         (mem w) b) b)) /\
  ((Z.to_nat count <= List.length table)%nat ->
   printBitFields bufferSize table count w
   = Some (tt, w,
           flat_map (fun b =>
                       bit_line (bit_value bufferSize
                                   ((count / 8 - bitIndex b / 8 - 1) mod 256)
                                   (mem w) b) b)
                    (firstn (Z.to_nat count) table))) /\
  (forall b, 0 <= count / 8 - bitIndex b / 8 - 1 < 256 ->
             byteIndex count b = count / 8 - bitIndex b / 8 - 1) /\
  (forall b, byteIndex count b = (count / 8 - bitIndex b / 8 - 1) mod 256) /\
  (forall b, bitIndex b = 0 -> byteIndex 32 b = 3) /\
  (forall b, bitIndex b = 31 -> byteIndex 32 b = 0) /\
  (forall b, bitIndex b = 0 -> byteIndex 16 b = 1).
Proof.
  split; [intros b; apply printBitField_spec |].
  split; [intros Hlen; apply printBitFields_loop_spec; lia |].
  split; [intros b Hb; apply Z.mod_small; exact Hb |].
  split; [reflexivity |].
  repeat split; intros b Hb; unfold byteIndex; rewrite Hb; reflexivity.
Qed.

(** C5 as stated fails where the difference is negative: for a table of
    one bit, of index 0, the index [1/8 - 0/8 - 1] is -1, outside every
    buffer, and yet with a buffer of 256 bytes the decoder reads the byte at
    index 255 and reports the bit as set. *)
Lemma printBitFields_negative_index_wraps :
  1 / 8 - 0 / 8 - 1 = -1 /\
  map bitIndex one_bit = [0] /\
  printBitFields 256 one_bit 1 last_byte_set
  = Some (tt, last_byte_set,
          [Text "Bit "; Dec 0; Text " ("; Text "FLAG"; Text "): ";
           Text "1 = "; Text "On"; Text " - "; Text "A flag"; NewLine]).
Proof. repeat split. Qed.

(** ** The failure paths of the runner *)

(** C3 as stated fails: when the command is not found, when the send fails
    and when the read fails, the runner writes the empty line and returns
    without the wait of 100 ms. *)
Lemma runMBACommand_failures_do_not_settle :
  runMBACommand 0x0B (Some "devicetype") (quiet_bus [])
  = Some (false, quiet_bus [],
          [Text "Command not found: "; Text "devicetype"; NewLine; NewLine])
  /\
  (exists w' ev,
     runMBACommand 0x0B (Some "SealDevice") (nack_bus [])
     = Some (false, w', ev) /\
     existsb is_settle ev = false /\
     skipn (List.length ev - 3) ev
     = [Text "Failed to send command."; NewLine; NewLine])
  /\
  (exists w' ev,
     runMBACommand 0x0B (Some "DeviceType") (quiet_bus [])
     = Some (false, w', ev) /\
     existsb is_settle ev = false /\
     skipn (List.length ev - 3) ev
     = [Text "Failed to read command response"; NewLine; NewLine]).
Proof.
  split; [reflexivity |].
  split; eexists _, _; (split; [vm_compute; reflexivity |]);
    split; reflexivity.
Qed.

(** * Further properties *)

(** ** Tools *)

(** A fact about every outcome holds of the outcome that there is. *)
Lemma returns_strengthen {A : Type} (m : M A) w
    (P Q : A -> World -> list Event -> Prop) :
  returns m w P ->
  (forall x w' ev, m w = Some (x, w', ev) -> Q x w' ev) ->
  returns m w (fun x w' ev => P x w' ev /\ Q x w' ev).
Proof.
  intros (x & w' & ev & Hm & HP) HQ. exists x, w', ev. auto.
Qed.

Lemma bind_inv {A B : Type} (m : M A) (f : A -> M B) w y w2 e :
  bind m f w = Some (y, w2, e) ->
  exists x w1 e1 e2,
    m w = Some (x, w1, e1) /\ f x w1 = Some (y, w2, e2) /\ e = e1 ++ e2.
Proof.
  unfold bind. intros H.
  destruct (m w) as [[[x w1] e1] |]; [| discriminate].
  destruct (f x w1) as [[[y' w2'] e2] |] eqn:Ef; [| discriminate].
  inversion H; subst. exists x, w1, e1, e2. repeat split. exact Ef.
Qed.

Lemma total_delay_app a b : total_delay (a ++ b) = total_delay a + total_delay b.
Proof.
  induction a as [|e a IH]; cbn [app total_delay fold_right]; [reflexivity |].
  fold (total_delay (a ++ b)). fold (total_delay a). rewrite IH.
  destruct e; lia.
Qed.

Lemma serial_takes_no_time ev : forallb is_serial ev = true -> total_delay ev = 0.
Proof.
  induction ev as [|e ev IH]; cbn [forallb total_delay fold_right];
    [reflexivity |].
  intros H. apply andb_prop in H as [He Hev]. fold (total_delay ev).
  destruct e; try discriminate; auto.
Qed.

Lemma stores_take_no_time ev : forallb is_store ev = true -> total_delay ev = 0.
Proof.
  induction ev as [|e ev IH]; cbn [forallb total_delay fold_right];
    [reflexivity |].
  intros H. apply andb_prop in H as [He Hev]. fold (total_delay ev).
  destruct e; try discriminate; auto.
Qed.

Lemma serial_stores_nothing ev :
  forallb is_serial ev = true -> store_indices ev = [].
Proof.
  induction ev as [|e ev IH]; cbn [forallb store_indices flat_map];
    [reflexivity |].
  intros H. apply andb_prop in H as [He Hev]. fold (store_indices ev).
  destruct e; try discriminate; cbn [app]; auto.
Qed.

(** ** The catalogue by name *)


(** ** The send operation, for any descriptor *)

Lemma map_nth_seq_firstn (d : list Z) : forall k,
  (k <= List.length d)%nat ->
  map (fun i => nth i d 0) (seq 0 k) = firstn k d.
Proof.
  intros k Hk. apply nth_ext with (d := 0) (d' := 0).
  - rewrite length_map, length_seq, length_firstn. lia.
  - intros i Hi. rewrite length_map, length_seq in Hi.
    rewrite nth_map_seq by exact Hi.
    rewrite nth_firstn. destruct (Nat.ltb_spec i k); [reflexivity | lia].
Qed.

Lemma low_high_byte v :
  0 <= v < 65536 ->
  is_byte (lowByte v) /\ is_byte (highByte v) /\
  lowByte v + 256 * highByte v = v.
Proof.
  intros Hv. unfold lowByte, highByte, to_uint8, is_byte.
  change 0xff with (Z.ones 8). rewrite Z.land_ones by lia.
  rewrite Z.shiftr_div_pow2 by lia. change (2 ^ 8) with 256.
  rewrite Z.mod_mod by lia.
  assert (0 <= v / 256 < 256)
    by (split; [apply Z.div_pos; lia | apply Z.div_lt_upper_bound; lia]).
  rewrite (Z.mod_small (v / 256)) by lia.
  pose proof (Z.mod_pos_bound v 256 ltac:(lia)).
  pose proof (Z.div_mod v 256 ltac:(lia)). lia.
Qed.

(** X2. For any descriptor whose sub-command fits 16 bits and whose payload
    is at most the 8 bytes of [data], the frame handed to the bus can be
    decoded: it is [0x44], a length byte that is the payload length plus 2,
    two bytes that give back the sub-command as low + 256 * high, and then
    exactly the payload bytes. *)
Theorem sendMBACommand_frame_decodes address c w :
  0 <= cmd c < 65536 ->
  0 <= dataLength c <= 8 ->
  List.length (data c) = 8%nat ->
  Forall is_byte (data c) ->
  exists w' rest b1 b2 b3,
    sendMBACommand address c w
    = Some (bus_status w 0%nat =? 0, w',
            Transmit address
              (0x44 :: b1 :: b2 :: b3 ::
               firstn (Z.to_nat (dataLength c)) (data c)) true
            :: Delay 20 :: rest) /\
    b1 - 2 = dataLength c /\
    is_byte b1 /\ is_byte b2 /\ is_byte b3 /\
    b2 + 256 * b3 = cmd c.
Proof.
  intros Hcmd Hlen Hdata Hbytes.
  destruct (low_high_byte (cmd c) Hcmd) as (Hlo & Hhi & Hsum).
  exists (after_send address w),
         (if bus_status w 0%nat =? 0 then []
          else [Text (error_message (bus_status w 0%nat)); NewLine]),
         (2 + dataLength c), (lowByte (cmd c)), (highByte (cmd c)).
  split; [| unfold is_byte in *; repeat split; lia].
  rewrite sendMBACommand_spec. unfold send_events, frame_of.
  unfold is_byte in Hlo, Hhi.
  unfold to_uint8 at 1 2 3 4.
  rewrite (Z.mod_small (2 + dataLength c)) by lia.
  rewrite (Z.mod_small (lowByte (cmd c))) by lia.
  rewrite (Z.mod_small (highByte (cmd c))) by lia.
  replace (map (fun i => to_uint8 (nth i (data c) 0))
               (seq 0 (Z.to_nat (dataLength c))))
    with (firstn (Z.to_nat (dataLength c)) (data c)); [reflexivity |].
  rewrite <- map_nth_seq_firstn by lia.
  apply map_ext_in. intros i Hi. apply in_seq in Hi.
  unfold to_uint8. symmetry. apply Z.mod_small.
  rewrite Forall_forall in Hbytes. apply Hbytes. apply nth_In. lia.
Qed.

Lemma sendMBACommand_frame_decodes_witness :
  exists w' rest b1 b2 b3,
    sendMBACommand 0x0B ClearPF2_entry (nack_bus [])
    = Some (false, w',
            Transmit 0x0B [0x44; b1; b2; b3; 0x01; 0x23; 0x45; 0x67] true
            :: Delay 20 :: rest) /\
    b1 - 2 = 4 /\ b2 + 256 * b3 = 0x4062.
Proof.
  destruct (sendMBACommand_frame_decodes 0x0B ClearPF2_entry (nack_bus []))
    as (w' & rest & b1 & b2 & b3 & H & H1 & _ & _ & _ & H23).
  - vm_compute. split; [discriminate | reflexivity].
  - vm_compute. split; discriminate.
  - reflexivity.
  - repeat constructor; vm_compute; discriminate.
  - exists w', rest, b1, b2, b3. split; [exact H | split; [exact H1 | exact H23]].
Defined.

(** X3. Sending always ends the transmission with a stop condition and
    then waits 20 ms, whether the bus accepted it or not; the result is
    [true] exactly when the bus status is 0, a failure prints one line with
    the message of the status, and neither the buffer memory nor the receive
    buffer is touched. *)
Theorem sendMBACommand_outcome address c w :
  exists w' frame rest,
    sendMBACommand address c w
    = Some (bus_status w 0%nat =? 0, w',
            Transmit address frame true :: Delay 20 :: rest) /\
    clock w' = clock w + 20 /\
    mem w' = mem w /\ rx_buffer w' = rx_buffer w /\
    (bus_status w 0%nat = 0 -> rest = []) /\
    (bus_status w 0%nat <> 0 ->
     rest = [Text (error_message (bus_status w 0%nat)); NewLine]).
Proof.
  exists (after_send address w), (frame_of c),
         (if bus_status w 0%nat =? 0 then []
          else [Text (error_message (bus_status w 0%nat)); NewLine]).
  split; [apply sendMBACommand_spec |].
  repeat split.
  - intros H. rewrite H. reflexivity.
  - intros H. apply Z.eqb_neq in H. rewrite H. reflexivity.
Qed.

(** ** The receive operation: its failures *)

(** X4. When the bus rejects the repeated-start transmission of the
    receive operation, the operation prints the message of the status and
    returns [false] at once: no read request, no wait, no store, and the
    receive buffer and the clock are as before. *)
Theorem readMBACommand_request_rejected address c bufferSize w :
  bus_status w 0%nat <> 0 ->
  exists w',
    readMBACommand address c bufferSize w
    = Some (false, w',
            oversize_warning bufferSize ++
            [Transmit address [0x44] false;
             Text (error_message (bus_status w 0%nat)); NewLine]) /\
    mem w' = mem w /\ rx_buffer w' = rx_buffer w /\ clock w' = clock w.
Proof.
  intros Hbus. apply Z.eqb_neq in Hbus.
  exists (next_status (set_tx address [0x44] w)).
  split; [| repeat split].
  unfold readMBACommand, oversize_warning.
  destruct (bufferSize >? SOFTWAREWIRE_BUFSIZE);
    repeat (erewrite bind_Some by reflexivity);
    cbn [bus_status set_tx next_status]; rewrite Hbus; cbn [negb];
    erewrite bind_Some by apply printMBACommandError_spec;
    reflexivity.
Qed.

Lemma readMBACommand_request_rejected_witness :
  exists w',
    readMBACommand 0x0B DeviceType_entry SOFTWAREWIRE_BUFSIZE (nack_bus [1; 2; 3])
    = Some (false, w',
            [Transmit 0x0B [0x44] false;
             Text "Error: Received NACK on transmit of address."; NewLine]).
Proof.
  destruct (readMBACommand_request_rejected 0x0B DeviceType_entry
              SOFTWAREWIRE_BUFSIZE (nack_bus [1; 2; 3]))
    as (w' & H & _).
  - cbn. discriminate.
  - exists w'. exact H.
Defined.

(** While fewer bytes than [len], and fewer than 31, are in the receive
    buffer, the loop waits 10 ms at a time until more than 10000 ms have
    passed since [start]; [n] is the number of waits still to come. *)
Lemma wait_loop_times_out n : forall fuel len start w,
  (n < fuel)%nat ->
  Z.of_nat (List.length (rx_buffer w)) < len ->
  Z.of_nat (List.length (rx_buffer w)) < SOFTWAREWIRE_BUFSIZE - 1 ->
  elapsed start w = 10010 - 10 * Z.of_nat n ->
  (n <= 1001)%nat ->
  wait_loop fuel len start w
  = Some (false, set_clock (clock w + 10 * Z.of_nat n) w,
          repeat (Delay 10) n ++
          [Text "Timeout waiting for full data block, only ";
           Dec (Z.of_nat (List.length (rx_buffer w)));
           Text " bytes readable."; NewLine]).
Proof.
  induction n as [|n IH]; intros fuel len start w Hfuel Hlen Hbuf He Hn;
    (destruct fuel as [|fuel]; [lia |]); cbn [wait_loop];
    erewrite bind_Some by reflexivity;
    rewrite (proj2 (Z.ltb_lt _ _) Hlen), (proj2 (Z.ltb_lt _ _) Hbuf);
    cbn [andb]; erewrite bind_Some by reflexivity;
    fold (elapsed start w); rewrite He, Z.gtb_ltb.
  - change (10000 <? 10010 - 10 * Z.of_nat 0) with true. cbn iota.
    destruct w; cbn. rewrite Z.add_0_r. reflexivity.
  - rewrite (proj2 (Z.ltb_ge 10000 (10010 - 10 * Z.of_nat (S n)))) by (clear; lia).
    erewrite bind_Some by reflexivity.
    rewrite (IH fuel len start (set_clock (clock w + 10) w)).
    + replace (clock w + 10 * Z.of_nat (S n))
        with (clock w + 10 + 10 * Z.of_nat n) by lia.
      reflexivity.
    + lia.
    + exact Hlen.
    + exact Hbuf.
    + rewrite elapsed_delay, He. unfold to_uint32.
      rewrite Z.mod_small; lia.
    + lia.
Qed.

(** X5. When at least 3 bytes have come but fewer than the length byte
    announces and fewer than 31, the receive operation waits 10 ms 1001
    times, 10010 ms in all, then prints the timeout line with the number of
    bytes that are readable and returns [false]; it stores nothing. *)
Theorem readMBACommand_block_timeout address c bufferSize w b rest :
  bus_status w 0%nat = 0 ->
  delivered (to_uint8 bufferSize) w = b :: rest ->
  (2 <= List.length rest)%nat ->
  Z.of_nat (List.length rest) < to_uint8 b ->
  Z.of_nat (List.length rest) < SOFTWAREWIRE_BUFSIZE - 1 ->
  exists w',
    readMBACommand address c bufferSize w
    = Some (false, w',
            oversize_warning bufferSize ++
            [Transmit address [0x44] false;
             Request address (to_uint8 bufferSize)] ++
            repeat (Delay 10) 1001 ++
            [Text "Timeout waiting for full data block, only ";
             Dec (Z.of_nat (List.length rest));
             Text " bytes readable."; NewLine]) /\
    mem w' = mem w /\ clock w' = clock w + 10010.
Proof.
  intros Hbus Hreply Hrest Hlen Hbuf.
  exists (set_clock (clock w + 10010)
            (set_rx rest (next_status (set_tx address [0x44] w)))).
  split; [| split; reflexivity].
  unfold readMBACommand, oversize_warning.
  assert (Hge : (Z.of_nat (List.length (b :: rest)) <? 3) = false)
    by (apply Z.ltb_ge; cbn [List.length]; lia).
  destruct (bufferSize >? SOFTWAREWIRE_BUFSIZE);
    repeat (erewrite bind_Some by reflexivity);
    cbn [bus_status set_tx next_status]; rewrite Hbus; cbn [Z.eqb negb];
    repeat (erewrite bind_Some by reflexivity);
    cbn [rx_buffer set_rx];
    match goal with
    | |- context [delivered ?q ?w'] =>
        change (delivered q w') with (delivered q w)
    end;
    rewrite Hreply, Hge;
    unfold Wire_read at 1; cbn [rx_buffer set_rx];
    repeat (erewrite bind_Some by reflexivity);
    (erewrite bind_Some;
     [| apply (wait_loop_times_out 1001);
        [ unfold wait_fuel; lia
        | exact Hlen
        | exact Hbuf
        | apply elapsed_start
        | lia ]]);
    reflexivity.
Qed.

Lemma readMBACommand_block_timeout_witness :
  exists w' ev,
    readMBACommand 0x0B DeviceType_entry SOFTWAREWIRE_BUFSIZE
                   (quiet_bus [0x06; 0x50; 0x00; 0x01])
    = Some (false, w', ev) /\
    clock w' = 10010.
Proof.
  destruct (readMBACommand_block_timeout 0x0B DeviceType_entry
              SOFTWAREWIRE_BUFSIZE (quiet_bus [0x06; 0x50; 0x00; 0x01])
              0x06 [0x50; 0x00; 0x01])
    as (w' & H & _ & Hc).
  - reflexivity.
  - reflexivity.
  - cbn. lia.
  - vm_compute. reflexivity.
  - vm_compute. reflexivity.
  - eexists w', _. split; [exact H | exact Hc].
Defined.

(** ** The receive operation: what it stores and how long it waits *)


(** Whatever the loop does, it leaves the receive buffer and the memory as
    they are, stores nothing, and waits no longer than what remains of the
    10010 ms after which it has given up. *)
Lemma wait_loop_inv fuel : forall len start w r w' ev,
  wait_loop fuel len start w = Some (r, w', ev) ->
  rx_buffer w' = rx_buffer w /\ mem w' = mem w /\
  store_indices ev = [] /\
  0 <= total_delay ev /\
  (elapsed start w <= 10010 -> total_delay ev <= 10010 - elapsed start w).
Proof.
  induction fuel as [|fuel IH]; intros len start w r w' ev H; [discriminate |].
  cbn [wait_loop] in H. unfold bind at 1 in H. cbn in H.
  destruct ((Z.of_nat (List.length (rx_buffer w)) <? len) &&
            (Z.of_nat (List.length (rx_buffer w)) <? 31)).
  - unfold bind at 1 in H. cbn [millis] in H. fold (elapsed start w) in H.
    rewrite Z.gtb_ltb in H.
    destruct (Z.ltb_spec 10000 (elapsed start w)) as [Hout | Hin].
    + cbn in H. inversion H; subst.
      repeat split; cbn [total_delay fold_right]; lia.
    + unfold bind at 1 in H. cbn [delay] in H.
      destruct (wait_loop fuel len start (set_clock (clock w + 10) w))
        as [[[r1 w1] e1] |] eqn:E; [| discriminate].
      inversion H; subst.
      apply IH in E as (Hrx & Hmem & Hst & Hd0 & Hd).
      rewrite elapsed_delay in Hd.
      assert (He : 0 <= elapsed start w)
        by (unfold elapsed, to_uint32; apply Z.mod_pos_bound; lia).
      unfold to_uint32 in Hd. rewrite Z.mod_small in Hd by lia.
      repeat split; try assumption;
        cbn [app total_delay fold_right]; fold (total_delay e1); lia.
  - inversion H; subst. repeat split; cbn [total_delay fold_right]; lia.
Qed.

(** The copy loop takes [k] bytes from the receive buffer (-1 once it is
    empty) and stores them, as bytes, from index [i] on. *)
Lemma copy_loop_spec k : forall i w,
  exists m' ev,
    copy_loop k i w
    = Some (tt, set_rx (skipn k (rx_buffer w)) (set_mem m' w), ev) /\
    store_indices ev = map (fun j => i + Z.of_nat j) (seq 0 k) /\
    forallb is_store ev = true /\
    forall j,
      m' j = if (i <=? j) && (j <? i + Z.of_nat k)
             then to_uint8 (nth (Z.to_nat (j - i)) (rx_buffer w) (-1))
             else mem w j.
Proof.
  induction k as [|k IH]; intros i w.
  - exists (mem w), []. split; [destruct w; reflexivity |].
    repeat split. intros j. zcases; try reflexivity; lia.
  - cbn [copy_loop].
    destruct (rx_buffer w) as [|b r] eqn:Erx.
    + destruct (IH (i + 1) (set_mem (update i (to_uint8 (-1)) (mem w)) w))
        as (m' & ev & Hrun & Hst & Hs & Hm').
      exists m', (Store i (to_uint8 (-1)) :: ev). split; [| split; [| split]].
      * unfold bind at 1. unfold Wire_read at 1. rewrite Erx.
        unfold bind at 1. cbn [store]. rewrite Hrun.
        cbn [rx_buffer set_mem]. rewrite Erx. destruct k; reflexivity.
      * cbn [store_indices flat_map app]. fold (store_indices ev).
        rewrite Hst. cbn [seq map]. rewrite Z.add_0_r. f_equal.
        rewrite <- seq_shift, map_map. apply map_ext. intros a. lia.
      * cbn. exact Hs.
      * intros j. rewrite Hm'. cbn [mem set_mem rx_buffer]. rewrite Erx.
        unfold update.
        zcases; try reflexivity; try lia;
          destruct (Z.to_nat (j - (i + 1))); destruct (Z.to_nat (j - i));
          reflexivity.
    + destruct (IH (i + 1)
                  (set_mem (update i (to_uint8 b) (mem (set_rx r w)))
                           (set_rx r w)))
        as (m' & ev & Hrun & Hst & Hs & Hm').
      exists m', (Store i (to_uint8 b) :: ev). split; [| split; [| split]].
      * unfold bind at 1. unfold Wire_read at 1. rewrite Erx.
        unfold bind at 1. cbn [store]. rewrite Hrun.
        cbn [rx_buffer set_mem set_rx skipn]. reflexivity.
      * cbn [store_indices flat_map app]. fold (store_indices ev).
        rewrite Hst. cbn [seq map]. rewrite Z.add_0_r. f_equal.
        rewrite <- seq_shift, map_map. apply map_ext. intros a. lia.
      * cbn. exact Hs.
      * intros j. rewrite Hm'. cbn [mem set_mem set_rx rx_buffer].
        unfold update.
        zcases; try reflexivity; try lia.
        -- replace (Z.to_nat (j - i)) with (S (Z.to_nat (j - (i + 1)))) by lia.
           reflexivity.
        -- subst j. rewrite Z.sub_diag. reflexivity.
Qed.

Lemma reverse_loop_footprint k : forall i n w,
  0 <= i -> 2 * (i + Z.of_nat k) <= n ->
  returns (reverse_loop k i n) w
          (fun _ _ ev =>
             Forall (fun j => 0 <= j < n) (store_indices ev) /\
             List.length (store_indices ev) = (2 * k)%nat /\
             forallb is_store ev = true).
Proof.
  induction k as [|k IH]; intros i n w Hi Hn.
  - apply returns_ret. repeat split. constructor.
  - cbn [reverse_loop]. do 4 prim.
    eapply returns_weaken; [apply IH; lia |].
    cbn beta. intros _ w' ev (Hall & Hlen & Hs).
    cbn [app store_indices flat_map]. fold (store_indices ev).
    split; [| split].
    + repeat constructor; try lia. exact Hall.
    + cbn [List.length]. rewrite Hlen. lia.
    + exact Hs.
Qed.

Lemma reverseBufferEndian_footprint n w :
  returns (reverseBufferEndian n) w
          (fun _ _ ev =>
             Forall (fun j => 0 <= j < n) (store_indices ev) /\
             List.length (store_indices ev) = (2 * Z.to_nat (n / 2))%nat /\
             forallb is_store ev = true).
Proof.
  unfold reverseBufferEndian.
  destruct (Z.le_gt_cases 0 n) as [Hn | Hn].
  - apply reverse_loop_footprint; [lia |].
    rewrite Z2Nat.id by (apply Z.div_pos; lia).
    pose proof (Z.mul_div_le n 2 ltac:(lia)). lia.
  - assert (Hk : Z.to_nat (n / 2) = 0%nat).
    { pose proof (Z.mul_div_le n 2 ltac:(lia)). lia. }
    rewrite Hk. apply returns_ret. repeat split. constructor.
Qed.

(** X6. The reversal of [n] bytes makes 2 * (n / 2) stores, all at indices
    from 0 to n - 1, changes nothing but the memory, and leaves every byte
    outside these indices as it was. *)
Theorem reverseBufferEndian_stays_inside n w :
  exists m' ev,
    reverseBufferEndian n w = Some (tt, set_mem m' w, ev) /\
    Forall (fun j => 0 <= j < n) (store_indices ev) /\
    List.length (store_indices ev) = (2 * Z.to_nat (n / 2))%nat /\
    forall j, ~ 0 <= j < n -> m' j = mem w j.
Proof.
  destruct (reverseBufferEndian_spec n w) as (m' & ev & Hrun & _ & Hm').
  destruct (reverseBufferEndian_footprint n w)
    as ([] & w1 & e1 & Hrun1 & Hall & Hlen & _).
  rewrite Hrun in Hrun1. inversion Hrun1; subst.
  exists m', e1. split; [exact Hrun | split; [exact Hall | split; [exact Hlen |]]].
  intros j Hj. rewrite Hm'. zcases; try reflexivity; lia.
Qed.

Lemma delivered_length q w :
  0 <= q -> Z.of_nat (List.length (delivered q w)) <= Z.min q SOFTWAREWIRE_BUFSIZE.
Proof.
  intros Hq. unfold delivered. rewrite length_firstn.
  unfold SOFTWAREWIRE_BUFSIZE. lia.
Qed.

Lemma to_uint8_le x : 0 <= x -> 0 <= to_uint8 x <= x.
Proof.
  intros Hx. unfold to_uint8. split.
  - apply Z.mod_pos_bound. lia.
  - apply Z.mod_le; lia.
Qed.

Ltac no_time :=
  rewrite ?total_delay_app;
  repeat match goal with
         | H : forallb is_serial ?e = true |- context [total_delay ?e] =>
             rewrite (serial_takes_no_time e H)
         | H : forallb is_store ?e = true |- context [total_delay ?e] =>
             rewrite (stores_take_no_time e H)
         end;
  cbn [total_delay fold_right].

Ltac no_stores :=
  rewrite ?store_indices_app;
  repeat match goal with
         | H : forallb is_serial ?e = true |- context [store_indices ?e] =>
             rewrite (serial_stores_nothing e H)
         | H : store_indices ?e = _ |- context [store_indices ?e] =>
             rewrite H
         end;
  cbn [store_indices flat_map app].

(** The receive operation waits at most 10010 ms; when the length byte does
    not exceed the capacity, every store is inside the buffer. *)
Lemma readMBACommand_footprint address c bufferSize w :
  0 <= bufferSize ->
  returns (readMBACommand address c bufferSize) w
          (fun _ _ ev =>
             0 <= total_delay ev <= 10010 /\
             ((forall b rest, delivered (to_uint8 bufferSize) w = b :: rest ->
                              to_uint8 b <= bufferSize) ->
              Forall (fun j => 0 <= j < bufferSize) (store_indices ev))).
Proof.
  intros Hsize. unfold readMBACommand.
  apply returns_bind.
  assert (Hwarn : returns
            (if bufferSize >? SOFTWAREWIRE_BUFSIZE
             then Serial_print "⚠️  Warning: bufferSize exceeds Wire buffer max (";;
                  Serial_print_dec SOFTWAREWIRE_BUFSIZE;;
                  Serial_println " bytes)."
             else ret tt) w
            (fun _ w' ev => w' = w /\ forallb is_serial ev = true)).
  { destruct (bufferSize >? SOFTWAREWIRE_BUFSIZE);
      eexists _, _, _; split; try reflexivity; split; reflexivity. }
  eapply returns_weaken; [exact Hwarn | cbn beta].
  intros _ w1 e1 (-> & H1). clear Hwarn.
  do 3 prim.
  match goal with |- context [negb ?b] => destruct b end; cbn [negb].
  - do 2 prim. cbn [rx_buffer set_rx].
    match goal with
    | |- context [delivered ?q ?w'] =>
        change (delivered q w') with (delivered q w)
    end.
    pose proof (delivered_length (to_uint8 bufferSize) w
                  (proj1 (to_uint8_le bufferSize Hsize))) as Hdl.
    pose proof (to_uint8_le bufferSize Hsize) as Hq.
    destruct (delivered (to_uint8 bufferSize) w) as [|b rest] eqn:Ed.
    + prim. apply returns_ret. split.
      * no_time. lia.
      * intros _. no_stores. constructor.
    + destruct (Z.ltb_spec (Z.of_nat (List.length (b :: rest))) 3) as [Hfew | Hmany].
      * prim. apply returns_ret. split.
        -- no_time. lia.
        -- intros _. no_stores. constructor.
      * do 2 prim. cbn [rx_buffer set_rx].
        apply returns_bind.
        eapply returns_weaken.
        { apply returns_strengthen.
          - apply wait_loop_returns with (fuel := wait_fuel).
            + unfold wait_fuel. lia.
            + unfold wait_fuel.
              match goal with |- context [elapsed (to_uint32 (clock ?w0)) ?w'] =>
                change (elapsed (to_uint32 (clock w0)) w')
                  with (elapsed (to_uint32 (clock w')) w') end.
              rewrite elapsed_start. lia.
          - intros r w' ev Hrun. exact (wait_loop_inv _ _ _ _ _ _ _ Hrun). }
        cbn beta. intros complete w3 e3 (_ & Hrx & _ & Hst & Hd0 & Hd).
        match type of Hd with context [elapsed (to_uint32 (clock ?w0)) ?w'] =>
          change (elapsed (to_uint32 (clock w0)) w')
            with (elapsed (to_uint32 (clock w')) w') in Hd end.
        rewrite elapsed_start in Hd. specialize (Hd ltac:(lia)).
        cbn [rx_buffer set_rx] in Hrx.
        destruct complete; cbn [negb].
        -- assert (Hmsg : returns
              (if to_uint8 b >? bufferSize
               then Serial_print "⚠️  Warning: Block length (";;
                    Serial_print_dec (to_uint8 b);;
                    Serial_print " bytes) exceeds buffer limit (";;
                    Serial_print_dec bufferSize;;
                    Serial_println " bytes). Truncation may occur."
               else Serial_print "Response length: ";;
                    Serial_print_dec (to_uint8 b);;
                    Serial_println " bytes") w3
              (fun _ w' ev => w' = w3 /\ forallb is_serial ev = true)).
           { destruct (to_uint8 b >? bufferSize);
               eexists _, _, _; split; try reflexivity; split; reflexivity. }
           apply returns_bind.
           eapply returns_weaken; [exact Hmsg | cbn beta].
           intros _ w4 e4 (-> & H4). clear Hmsg.
           prim. rewrite Hrx.
           apply returns_bind.
           destruct (copy_loop_spec (Z.to_nat (Z.of_nat (List.length rest))) 0 w3)
             as (m5 & e5 & Hrun5 & Hst5 & Hs5 & _).
           eexists _, _, _. split; [exact Hrun5 | cbn beta].
           call printBuffer_spec. intros _ w6 e6 (H6 & _).
           call reverseBufferEndian_footprint. intros _ w7 e7 (Hall7 & _ & Hs7).
           apply returns_ret. split.
           ++ no_time. lia.
           ++ intros Hlen. specialize (Hlen b rest eq_refl).
              no_stores. rewrite ?app_nil_r.
              apply Forall_app. split.
              ** apply Forall_forall. intros j Hj. apply in_map_iff in Hj
                   as (a & <- & Ha). apply in_seq in Ha.
                 cbn [List.length] in Hdl.
                 unfold SOFTWAREWIRE_BUFSIZE in Hdl. lia.
              ** eapply Forall_impl; [| exact Hall7]. cbn beta. intros j Hj. lia.
        -- apply returns_ret. split.
           ++ no_time. lia.
           ++ intros _. no_stores. constructor.
  - call printMBACommandError_returns. intros _ w2 e2 ->.
    apply returns_ret. split.
    + no_time. lia.
    + intros _. no_stores. constructor.
Qed.

(** X7. When the length byte of the response does not exceed the capacity
    given by the caller, every store of the receive operation, on every
    path, is at an index from 0 to capacity - 1. *)
Theorem readMBACommand_stores_inside_buffer address c bufferSize w :
  0 <= bufferSize ->
  (forall b rest, delivered (to_uint8 bufferSize) w = b :: rest ->
                  to_uint8 b <= bufferSize) ->
  returns (readMBACommand address c bufferSize) w
          (fun _ _ ev =>
             Forall (fun j => 0 <= j < bufferSize) (store_indices ev)).
Proof.
  intros Hsize Hlen.
  eapply returns_weaken; [apply readMBACommand_footprint; exact Hsize |].
  cbn beta. intros _ w' ev (_ & H). apply H. exact Hlen.
Qed.

Lemma readMBACommand_stores_inside_buffer_witness :
  returns (readMBACommand 0x0B DeviceType_entry SOFTWAREWIRE_BUFSIZE)
          (quiet_bus [0x04; 0x01; 0x00; 0x0A; 0x0B])
          (fun _ _ ev =>
             Forall (fun j => 0 <= j < SOFTWAREWIRE_BUFSIZE) (store_indices ev)).
Proof.
  apply readMBACommand_stores_inside_buffer.
  - vm_compute. discriminate.
  - intros b rest H. vm_compute in H. inversion H. vm_compute. discriminate.
Defined.

(** X8. The runner always returns, and the time it spends in [delay] is at
    most 10130 ms (20 after the send, at most 10010 in the polling loop, 100
    at the end); when it returns [true] it has waited at least 120 ms. *)
Theorem runMBACommand_bounded_wait address cmdName w :
  returns (runMBACommand address cmdName) w
          (fun r _ ev =>
             0 <= total_delay ev <= 10130 /\
             (r = true -> 120 <= total_delay ev)).
Proof.
  unfold runMBACommand.
  destruct (getMBACommandInfoByName cmdName) as [c |].
  - prim.
    call printMBACommandInfo_spec. intros _ w1 e1 (Hs1 & _).
    apply returns_bind. eexists _, _, _.
    split; [apply sendMBACommand_spec | cbn beta].
    unfold send_events.
    destruct (bus_status w1 0%nat =? 0); cbn [negb].
    + destruct (same_literal (access c) "W"); cbn [negb].
      * do 3 prim. apply returns_ret. no_time. lia.
      * apply returns_bind. unfold read_phase. apply returns_bind.
        eapply returns_weaken;
          [apply readMBACommand_footprint; unfold SOFTWAREWIRE_BUFSIZE; lia
          | cbn beta].
        intros ok w2 e2 (Hd2 & _).
        destruct ok; cbn [negb].
        -- assert (Hdecode : returns
                     match bitfields c with
                     | Some table =>
                         if bitfieldCount c >? 0
                         then printBitFields (SOFTWAREWIRE_BUFSIZE - 2) table
                                             (bitfieldCount c);;
                              ret None
                         else ret None
                     | None => ret (@None bool)
                     end w2
                     (fun r _ ev => r = None /\ forallb is_serial ev = true)).
           { destruct (bitfields c) as [table |]; [| apply returns_ret; auto].
             destruct (bitfieldCount c >? 0); [| apply returns_ret; auto].
             call printBitFields_loop_prints. intros _ w3 e3 H3.
             apply returns_ret. rewrite app_nil_r. auto. }
           eapply returns_weaken; [apply Hdecode | cbn beta].
           intros r w3 e3 (-> & H3).
           do 2 prim. apply returns_ret. no_time. lia.
        -- do 2 prim. apply returns_ret. apply returns_ret.
           no_time. split; [lia | discriminate].
    + do 2 prim. apply returns_ret. no_time. split; [lia | discriminate].
  - prim.
    assert (Hptr : emits_only is_serial (Serial_print_ptr cmdName)).
    { destruct cmdName; unfold Serial_print_ptr, Serial_print; prints. }
    call Hptr. intros _ w1 e1 H1.
    do 2 prim. apply returns_ret. no_time. split; [lia | discriminate].
Qed.

(** ** The receive operation: a complete block *)

Lemma of_digits_rev base l : of_digits base (rev l) = of_digits_le base l.
Proof.
  unfold of_digits, of_digits_le.
  rewrite <- (rev_involutive l) at 2. rewrite fold_left_rev_right.
  reflexivity.
Qed.

Lemma keeps_world_load i : keeps_world (load i).
Proof. intros w x w' ev H. inversion H. reflexivity. Qed.

Ltac keeps :=
  repeat first
    [ apply keeps_world_ret
    | apply keeps_world_load
    | apply keeps_world_emit
    | apply keeps_world_if
    | apply keeps_world_bind; [| intros ? ]
    | assumption ].

Lemma print_hex_loop_keeps_world k : forall i, keeps_world (print_hex_loop k i).
Proof. induction k as [|k IH]; intros i; cbn [print_hex_loop]; keeps. apply IH. Qed.

Lemma print_dec_loop_keeps_world k : forall i, keeps_world (print_dec_loop k i).
Proof. induction k as [|k IH]; intros i; cbn [print_dec_loop]; keeps. apply IH. Qed.

Lemma print_bits_keeps_world k v : keeps_world (print_bits k v).
Proof. induction k as [|k IH]; cbn [print_bits]; keeps. Qed.

Lemma print_bin_loop_keeps_world k : forall i, keeps_world (print_bin_loop k i).
Proof.
  induction k as [|k IH]; intros i; cbn [print_bin_loop]; keeps;
    try apply print_bits_keeps_world; apply IH.
Qed.

Lemma print_txt_loop_keeps_world k : forall i, keeps_world (print_txt_loop k i).
Proof. induction k as [|k IH]; intros i; cbn [print_txt_loop]; keeps. apply IH. Qed.

Lemma printBuffer_keeps_world n f : keeps_world (printBuffer n f).
Proof.
  unfold printBuffer. destruct f; keeps;
    first [ apply print_hex_loop_keeps_world | apply print_dec_loop_keeps_world
          | apply print_bin_loop_keeps_world | apply print_txt_loop_keeps_world ].
Qed.

Lemma printBuffer_quiet n f w :
  exists ev, printBuffer n f w = Some (tt, w, ev) /\
             forallb is_serial ev = true.
Proof.
  destruct (printBuffer_spec n f w) as ([] & w' & ev & Hrun & Hs & _).
  pose proof (printBuffer_keeps_world n f _ _ _ _ Hrun). subst w'.
  exists ev. auto.
Qed.

(** The loop is left at once when the block is complete or the receive
    buffer is full. *)
Lemma wait_loop_complete fuel len start w :
  len <= Z.of_nat (List.length (rx_buffer w)) \/
  SOFTWAREWIRE_BUFSIZE - 1 <= Z.of_nat (List.length (rx_buffer w)) ->
  wait_loop (S fuel) len start w = Some (true, w, []).
Proof.
  intros H. cbn [wait_loop]. erewrite bind_Some by reflexivity.
  replace ((Z.of_nat (List.length (rx_buffer w)) <? len) &&
           (Z.of_nat (List.length (rx_buffer w)) <? SOFTWAREWIRE_BUFSIZE - 1))
    with false; [reflexivity |].
  symmetry. apply andb_false_iff. rewrite !Z.ltb_ge. lia.
Qed.

(** The first [n] bytes of a memory that holds, mirrored, the first [n]
    elements of [l]. *)
Lemma buffer_bytes_mirror (n : nat) (l : list Z) w :
  (n <= List.length l)%nat ->
  (forall j, 0 <= j < Z.of_nat n ->
             mem w j = to_uint8 (nth (Z.to_nat (Z.of_nat n - 1 - j)) l 0)) ->
  buffer_bytes n w = rev (firstn n (map to_uint8 l)).
Proof.
  intros Hn Hm. unfold buffer_bytes.
  apply nth_ext with (d := 0) (d' := 0).
  - rewrite length_rev, length_firstn, !length_map, length_seq. lia.
  - intros i Hi. rewrite length_map, length_seq in Hi.
    rewrite nth_map_seq by exact Hi.
    rewrite rev_nth; [| rewrite length_firstn, length_map; lia].
    rewrite length_firstn, length_map.
    rewrite Nat.min_l by lia.
    rewrite nth_firstn.
    destruct (Nat.ltb_spec (n - S i) n); [| lia].
    rewrite Hm by lia.
    rewrite (nth_indep (map to_uint8 l) 0 (to_uint8 0))
      by (rewrite length_map; lia).
    rewrite map_nth. do 2 f_equal. lia.
Qed.

(** When the block is complete, or the receive buffer is full, the receive
    operation returns [true]; the buffer then holds the bytes that followed
    the length byte, the first [len] of its places mirrored. *)
Lemma readMBACommand_success_memory address c bufferSize w b rest :
  bus_status w 0%nat = 0 ->
  delivered (to_uint8 bufferSize) w = b :: rest ->
  (2 <= List.length rest)%nat ->
  to_uint8 b <= Z.of_nat (List.length rest) \/
  SOFTWAREWIRE_BUFSIZE - 1 <= Z.of_nat (List.length rest) ->
  exists w' ev copied,
    readMBACommand address c bufferSize w = Some (true, w', ev) /\
    rx_buffer w' = [] /\
    (forall j, copied j =
               if (0 <=? j) && (j <? Z.of_nat (List.length rest))
               then to_uint8 (nth (Z.to_nat j) rest 0)
               else mem w j) /\
    forall j, mem w' j =
              if (0 <=? j) && (j <? to_uint8 b)
              then copied (to_uint8 b - 1 - j)
              else copied j.
Proof.
  intros Hbus Hreply Hrest Hdone.
  set (w3 := set_rx rest (next_status (set_tx address [0x44] w))).
  destruct (copy_loop_spec (List.length rest) 0 w3)
    as (m5 & e5 & Hrun5 & _ & _ & Hm5).
  cbn [rx_buffer w3 set_rx] in Hrun5. unfold w3 in Hrun5 at 1.
  rewrite skipn_all in Hrun5.
  set (w5 := set_rx [] (set_mem m5 w3)) in *.
  destruct (printBuffer_quiet (Z.min (Z.of_nat (List.length rest)) (to_uint8 b))
              (displayFormat c) w5) as (e6 & Hrun6 & _).
  destruct (reverseBufferEndian_spec (to_uint8 b) w5) as (m7 & e7 & Hrun7 & _ & Hm7).
  exists (set_mem m7 w5).
  assert (Hrun : exists ev,
             readMBACommand address c bufferSize w
             = Some (true, set_mem m7 w5, ev)).
  { assert (Hge : (Z.of_nat (List.length (b :: rest)) <? 3) = false)
      by (apply Z.ltb_ge; cbn [List.length]; lia).
    destruct (bufferSize >? SOFTWAREWIRE_BUFSIZE) eqn:Ex;
      destruct (to_uint8 b >? bufferSize) eqn:Ey;
      eexists; unfold readMBACommand; rewrite Ex;
      repeat (erewrite bind_Some by reflexivity);
      cbn [bus_status set_tx next_status]; rewrite Hbus; cbn [Z.eqb negb];
      repeat (erewrite bind_Some by reflexivity);
      cbn [rx_buffer set_rx];
      match goal with
      | |- context [delivered ?q ?w'] =>
          change (delivered q w') with (delivered q w)
      end;
      rewrite Hreply, Hge;
      unfold Wire_read at 1; cbn [rx_buffer set_rx];
      repeat (erewrite bind_Some by reflexivity);
      (erewrite bind_Some;
       [| unfold wait_fuel; apply wait_loop_complete;
          cbn [rx_buffer set_rx]; exact Hdone]);
      cbn [negb]; rewrite Ey;
      repeat (erewrite bind_Some by reflexivity);
      cbn [rx_buffer set_rx]; rewrite Nat2Z.id;
      (erewrite bind_Some by exact Hrun5);
      (erewrite bind_Some by exact Hrun6);
      (erewrite bind_Some by exact Hrun7);
      reflexivity. }
  destruct Hrun as (ev & Hrun). exists ev, m5.
  split; [exact Hrun | split; [reflexivity | split]].
  - intros j. rewrite Hm5. unfold w3.
    cbn [mem set_mem set_rx rx_buffer next_status set_tx].
    rewrite !Z.sub_0_r, !Z.add_0_l.
    zcases; try reflexivity; apply f_equal; apply nth_indep; lia.
  - intros j. cbn [mem set_mem]. rewrite Hm7. reflexivity.
Qed.

(** X9. When the bus accepts the read request and all the bytes that the
    length byte announces have come, the receive operation returns [true]
    and empties the receive buffer; the first [len] bytes of the caller's
    buffer are the first [len] bytes that followed the length byte, in
    reverse order, so that the buffer read most significant byte first is the
    block read least significant byte first; the bytes that came after them
    are behind, in the order in which they came, and the rest of the memory
    is as it was. *)
Theorem readMBACommand_complete_block address c bufferSize w b rest :
  bus_status w 0%nat = 0 ->
  delivered (to_uint8 bufferSize) w = b :: rest ->
  (2 <= List.length rest)%nat ->
  to_uint8 b <= Z.of_nat (List.length rest) ->
  exists w' ev,
    readMBACommand address c bufferSize w = Some (true, w', ev) /\
    rx_buffer w' = [] /\
    buffer_bytes (Z.to_nat (to_uint8 b)) w'
    = rev (firstn (Z.to_nat (to_uint8 b)) (map to_uint8 rest)) /\
    of_digits 256 (buffer_bytes (Z.to_nat (to_uint8 b)) w')
    = of_digits_le 256 (firstn (Z.to_nat (to_uint8 b)) (map to_uint8 rest)) /\
    forall j,
      mem w' j =
      if (0 <=? j) && (j <? to_uint8 b)
      then to_uint8 (nth (Z.to_nat (to_uint8 b - 1 - j)) rest 0)
      else if (0 <=? j) && (j <? Z.of_nat (List.length rest))
           then to_uint8 (nth (Z.to_nat j) rest 0)
           else mem w j.
Proof.
  intros Hbus Hreply Hrest Hlen.
  destruct (readMBACommand_success_memory address c bufferSize w b rest
              Hbus Hreply Hrest (or_introl Hlen))
    as (w' & ev & copied & Hrun & Hrx & Hcopied & Hmem).
  exists w', ev.
  assert (Hpt : forall j,
            mem w' j =
            if (0 <=? j) && (j <? to_uint8 b)
            then to_uint8 (nth (Z.to_nat (to_uint8 b - 1 - j)) rest 0)
            else if (0 <=? j) && (j <? Z.of_nat (List.length rest))
                 then to_uint8 (nth (Z.to_nat j) rest 0)
                 else mem w j).
  { intros j. rewrite Hmem, !Hcopied.
    zcases; try reflexivity; lia. }
  assert (Hb : 0 <= to_uint8 b)
    by (unfold to_uint8; apply Z.mod_pos_bound; lia).
  assert (Hrev : buffer_bytes (Z.to_nat (to_uint8 b)) w'
                 = rev (firstn (Z.to_nat (to_uint8 b)) (map to_uint8 rest))).
  { apply buffer_bytes_mirror; [lia |].
    intros j Hj. rewrite Hpt. rewrite Z2Nat.id in * by lia.
    zcases; try lia; reflexivity. }
  split; [exact Hrun | split; [exact Hrx | split; [exact Hrev |]]].
  split; [| exact Hpt].
  rewrite Hrev. apply of_digits_rev.
Qed.

Lemma readMBACommand_complete_block_witness :
  exists w' ev,
    readMBACommand 0x0B DeviceType_entry SOFTWAREWIRE_BUFSIZE
                   (quiet_bus [0x04; 0x01; 0x00; 0x0A; 0x0B])
    = Some (true, w', ev) /\
    buffer_bytes 4 w' = [0x0B; 0x0A; 0x00; 0x01].
Proof.
  destruct (readMBACommand_complete_block 0x0B DeviceType_entry
              SOFTWAREWIRE_BUFSIZE (quiet_bus [0x04; 0x01; 0x00; 0x0A; 0x0B])
              0x04 [0x01; 0x00; 0x0A; 0x0B])
    as (w' & ev & H & _ & Hb & _).
  - reflexivity.
  - reflexivity.
  - cbn. lia.
  - vm_compute. discriminate.
  - exists w', ev. split; [exact H | exact Hb].
Defined.

(** X10. A block that announces 32 bytes never comes whole into the 32
    bytes of the library, one of which is the length byte: with the 31 bytes
    that follow, the receive operation with a capacity of 32 returns [true]
    at once, and after the reversal [buffer[0]] holds what [buffer[31]] held
    before the call, which the operation never wrote; the 31 received bytes
    are at the indices 31 down to 1. *)
Theorem readMBACommand_full_length_block address c w b rest :
  bus_status w 0%nat = 0 ->
  delivered (to_uint8 SOFTWAREWIRE_BUFSIZE) w = b :: rest ->
  List.length rest = 31%nat ->
  to_uint8 b = SOFTWAREWIRE_BUFSIZE ->
  exists w' ev,
    readMBACommand address c SOFTWAREWIRE_BUFSIZE w = Some (true, w', ev) /\
    mem w' 0 = mem w 31 /\
    forall j, 1 <= j < 32 ->
              mem w' j = to_uint8 (nth (Z.to_nat (31 - j)) rest 0).
Proof.
  intros Hbus Hreply Hrest Hlen.
  destruct (readMBACommand_success_memory address c SOFTWAREWIRE_BUFSIZE
              w b rest Hbus Hreply)
    as (w' & ev & copied & Hrun & _ & Hcopied & Hmem).
  - lia.
  - right. rewrite Hrest. vm_compute. discriminate.
  - exists w', ev. split; [exact Hrun |].
    rewrite Hlen in Hmem. unfold SOFTWAREWIRE_BUFSIZE in Hmem.
    rewrite Hrest in Hcopied. split.
    + rewrite Hmem, Hcopied. reflexivity.
    + intros j Hj. rewrite Hmem, Hcopied.
      zcases; try lia; try reflexivity; do 2 f_equal; lia.
Qed.

Lemma readMBACommand_full_length_block_witness :
  exists w' ev,
    readMBACommand 0x0B DeviceType_entry SOFTWAREWIRE_BUFSIZE
                   (quiet_bus (32 :: repeat 0xAA 31))
    = Some (true, w', ev) /\
    mem w' 0 = 0xEE.
Proof.
  destruct (readMBACommand_full_length_block 0x0B DeviceType_entry
              (quiet_bus (32 :: repeat 0xAA 31)) 32 (repeat 0xAA 31))
    as (w' & ev & H & H0 & _).
  - reflexivity.
  - reflexivity.
  - reflexivity.
  - reflexivity.
  - exists w', ev. split; [exact H | exact H0].
Defined.

(** ** The runner, path by path *)

(** X11. For an absent name, and for a name that no entry of the catalogue
    has, the runner prints the line that the command is not found and an
    empty line and returns [false]; nothing is sent, nothing is stored, no
    time is spent: the world is as before. *)
Theorem runMBACommand_unknown_name address w :
  runMBACommand address None w
  = Some (false, w, [Text "Command not found: "; NewLine; NewLine]) /\
  forall n,
    (forall c, In c MBACommandsInfo -> name c <> n) ->
    runMBACommand address (Some n) w
    = Some (false, w,
            [Text "Command not found: "; Text n; NewLine; NewLine]).
Proof.
  split; [reflexivity |].
  intros n Hn. unfold runMBACommand.
  assert (H : getMBACommandInfoByName (Some n) = None).
  { cbn [getMBACommandInfoByName]. apply lookup_loop_None.
    apply Forall_forall. exact Hn. }
  rewrite H. reflexivity.
Qed.

Lemma printMBACommandInfo_quiet c w :
  exists ev, printMBACommandInfo c w = Some (tt, w, ev) /\
             forallb is_serial ev = true.
Proof.
  destruct (printMBACommandInfo_spec c w) as ([] & w' & ev & Hrun & Hs & _).
  pose proof (printMBACommandInfo_keeps_world c _ _ _ _ Hrun). subst w'.
  exists ev. auto.
Qed.

(** X12. When the bus rejects the send of a command that was found, be it
    readable or write-only, the runner returns [false] after the error line,
    the line that the send failed and an empty line; there is no read phase:
    one frame went to the bus, the buffer memory and the receive buffer are
    as before and only the 20 ms of the send have passed. *)
Theorem runMBACommand_send_failure address cmdName c w :
  getMBACommandInfoByName cmdName = Some c ->
  bus_status w 0%nat <> 0 ->
  exists w' intro frame,
    runMBACommand address cmdName w
    = Some (false, w',
            intro ++
            [Transmit address frame true; Delay 20;
             Text (error_message (bus_status w 0%nat)); NewLine;
             Text "Failed to send command."; NewLine; NewLine]) /\
    forallb is_serial intro = true /\
    mem w' = mem w /\ rx_buffer w' = rx_buffer w /\
    clock w' = clock w + 20.
Proof.
  intros Hlookup Hbus. apply Z.eqb_neq in Hbus.
  destruct (printMBACommandInfo_quiet c w) as (e1 & Hinfo & Hs1).
  exists (after_send address w), (Text "Starting command " :: e1), (frame_of c).
  split; [| split; [exact Hs1 | repeat split]].
  unfold runMBACommand. rewrite Hlookup.
  erewrite bind_Some by reflexivity.
  erewrite bind_Some by exact Hinfo.
  erewrite bind_Some by apply sendMBACommand_spec.
  unfold send_events. rewrite Hbus. cbn [negb].
  repeat (erewrite bind_Some by reflexivity).
  reflexivity.
Qed.

Lemma runMBACommand_send_failure_witness :
  exists w' intro frame,
    runMBACommand 0x0B (Some "SafetyAlert") (nack_bus [])
    = Some (false, w',
            intro ++
            [Transmit 0x0B frame true; Delay 20;
             Text "Error: Received NACK on transmit of address."; NewLine;
             Text "Failed to send command."; NewLine; NewLine]) /\
    forallb is_serial intro = true.
Proof.
  destruct (runMBACommand_send_failure 0x0B (Some "SafetyAlert")
              (catalogue_entry 9) (nack_bus []))
    as (w' & intro & frame & H & Hs & _).
  - reflexivity.
  - cbn. discriminate.
  - exists w', intro, frame. split; [exact H | exact Hs].
Defined.

(** X13. For a readable entry of the catalogue, once the send is accepted
    the runner is the receive operation with the capacity of 32 bytes run in
    the world that the send leaves: when that returns [false] the runner adds
    the line that the read failed and an empty line and returns [false]; when
    it returns [true] the runner adds, for an entry with a table, the line of
    every bit of the table decoded from the received buffer, then the empty
    line and the wait of 100 ms, and returns [true]. *)
Theorem runMBACommand_read_command address c w ok w1 e_read :
  In c MBACommandsInfo ->
  access c = "R" ->
  bus_status w 0%nat = 0 ->
  readMBACommand address c SOFTWAREWIRE_BUFSIZE (after_send address w)
  = Some (ok, w1, e_read) ->
  exists intro frame,
    forallb is_serial intro = true /\
    runMBACommand address (Some (name c)) w
    = Some (ok,
            (if ok then set_clock (clock w1 + 100) w1 else w1),
            intro ++ [Transmit address frame true; Delay 20] ++ e_read ++
            (if ok then decode_lines c (mem w1) ++ [NewLine; Delay 100]
             else [Text "Failed to read command response";
                   NewLine; NewLine])).
Proof.
  intros Hin Haccess Hbus Hread.
  destruct (printMBACommandInfo_quiet c w) as (e1 & Hinfo & Hs1).
  exists (Text "Starting command " :: e1), (frame_of c).
  split; [exact Hs1 |].
  pose proof catalogue_printable as Hp.
  rewrite forallb_forall in Hp. specialize (Hp c Hin).
  unfold runMBACommand. rewrite (lookup_own_name c Hin).
  erewrite bind_Some by reflexivity.
  erewrite bind_Some by exact Hinfo.
  erewrite bind_Some by apply sendMBACommand_spec.
  unfold send_events. rewrite Hbus, Haccess.
  cbn [Z.eqb negb same_literal String.eqb Ascii.eqb Bool.eqb].
  unfold read_phase, decode_lines, schema_printable in *.
  destruct ok.
  - destruct (bitfields c) as [table |].
    + apply andb_prop in Hp as [Hlen _]. apply Nat.leb_le in Hlen.
      destruct (bitfieldCount c >? 0).
      * erewrite bind_Some;
          [| erewrite bind_Some by exact Hread; cbn [negb];
             unfold printBitFields;
             erewrite bind_Some
               by (apply printBitFields_loop_spec; lia);
             reflexivity].
        cbn [skipn]. repeat (erewrite bind_Some by reflexivity).
        cbn [ret]. rewrite ?app_nil_r, <- ?app_assoc. reflexivity.
      * erewrite bind_Some;
          [| erewrite bind_Some by exact Hread; reflexivity].
        repeat (erewrite bind_Some by reflexivity).
        cbn [ret]. rewrite ?app_nil_r, <- ?app_assoc. reflexivity.
    + erewrite bind_Some;
        [| erewrite bind_Some by exact Hread; reflexivity].
      repeat (erewrite bind_Some by reflexivity).
      cbn [ret]. rewrite ?app_nil_r, <- ?app_assoc. reflexivity.
  - erewrite bind_Some;
      [| erewrite bind_Some by exact Hread; cbn [negb];
         repeat (erewrite bind_Some by reflexivity); reflexivity].
    cbn [ret]. rewrite ?app_nil_r, <- ?app_assoc. reflexivity.
Qed.

Lemma runMBACommand_read_command_witness :
  exists ok w' ev,
    runMBACommand 0x0B (Some "ManufacturingStatus")
                  (quiet_bus [0x04; 0x57; 0x00; 0x0A; 0x0B])
    = Some (ok, w', ev).
Proof.
  assert (Hread : exists ok w1 e_read,
             readMBACommand 0x0B (catalogue_entry 14) SOFTWAREWIRE_BUFSIZE
               (after_send 0x0B (quiet_bus [0x04; 0x57; 0x00; 0x0A; 0x0B]))
             = Some (ok, w1, e_read))
    by (eexists _, _, _; vm_compute; reflexivity).
  destruct Hread as (ok & w1 & e_read & Hread).
  destruct (runMBACommand_read_command 0x0B (catalogue_entry 14)
              (quiet_bus [0x04; 0x57; 0x00; 0x0A; 0x0B]) ok w1 e_read)
    as (intro & frame & _ & H).
  - do 14 right. left. reflexivity.
  - reflexivity.
  - reflexivity.
  - exact Hread.
  - eexists _, _, _. exact H.
Defined.

(** ** Rendering a buffer *)

Lemma bytes_from_S i k w :
  bytes_from i (S k) w = mem w i :: bytes_from (i + 1) k w.
Proof.
  unfold bytes_from. cbn [seq map]. rewrite Z.add_0_r. f_equal.
  rewrite <- seq_shift, map_map. apply map_ext. intros a. f_equal. lia.
Qed.

Lemma bytes_from_0 k w : bytes_from 0 k w = buffer_bytes k w.
Proof. reflexivity. Qed.

Lemma print_hex_loop_spec k : forall i w,
  print_hex_loop k i w = Some (tt, w, flat_map hex_tokens (bytes_from i k w)).
Proof.
  induction k as [|k IH]; intros i w; [reflexivity |].
  rewrite bytes_from_S. cbn [print_hex_loop flat_map].
  erewrite bind_Some by reflexivity. cbn beta.
  unfold hex_tokens.
  destruct (mem w i <? 16);
    repeat (erewrite bind_Some by reflexivity); rewrite IH; reflexivity.
Qed.

Lemma print_dec_loop_spec k : forall i w,
  print_dec_loop k i w = Some (tt, w, flat_map dec_tokens (bytes_from i k w)).
Proof.
  induction k as [|k IH]; intros i w; [reflexivity |].
  rewrite bytes_from_S. cbn [print_dec_loop flat_map].
  repeat (erewrite bind_Some by reflexivity). rewrite IH. reflexivity.
Qed.

Lemma print_bin_loop_spec k : forall i w,
  print_bin_loop k i w = Some (tt, w, flat_map bin_tokens (bytes_from i k w)).
Proof.
  induction k as [|k IH]; intros i w; [reflexivity |].
  rewrite bytes_from_S. cbn [print_bin_loop flat_map].
  repeat (erewrite bind_Some by reflexivity). rewrite IH. reflexivity.
Qed.

Lemma print_txt_loop_spec k : forall i w,
  print_txt_loop k i w = Some (tt, w, flat_map txt_tokens (bytes_from i k w)).
Proof.
  induction k as [|k IH]; intros i w; [reflexivity |].
  rewrite bytes_from_S. cbn [print_txt_loop flat_map].
  erewrite bind_Some by reflexivity. cbn beta. unfold txt_tokens.
  destruct ((32 <=? mem w i) && (mem w i <=? 126));
    repeat (erewrite bind_Some by reflexivity); rewrite IH; reflexivity.
Qed.

Lemma bit_digit v k : 0 <= k -> bitRead v k = (v / 2 ^ k) mod 2.
Proof.
  intros Hk. unfold bitRead. change 1 with (Z.ones 1).
  rewrite Z.land_ones by lia. rewrite Z.shiftr_div_pow2 by lia. reflexivity.
Qed.

(** X14. Whatever the format, the output of [printBuffer] starts with the
    hex line, with for each byte of the buffer, in order, ["0x"], a ["0"]
    exactly when the byte is below 0x10, the byte in hexadecimal and a space;
    the decimal, binary and text formats add one line, the hex and mixed
    formats none; the world is as before.  The eight digits of a byte in the
    binary line are 0 or 1 and, read most significant first, give the byte
    back. *)
Theorem printBuffer_renders n f w :
  printBuffer n f w
  = Some (tt, w, buffer_lines (buffer_bytes (Z.to_nat n) w) f) /\
  (forall b, is_byte b ->
     of_digits 2 (map (bitRead b) [7; 6; 5; 4; 3; 2; 1; 0]) = b /\
     Forall (fun d => d = 0 \/ d = 1)
            (map (bitRead b) [7; 6; 5; 4; 3; 2; 1; 0])).
Proof.
  split.
  - unfold printBuffer, buffer_lines. rewrite <- bytes_from_0.
    erewrite bind_Some by reflexivity.
    erewrite bind_Some by apply print_hex_loop_spec.
    erewrite bind_Some by reflexivity.
    destruct f.
    + erewrite bind_Some by reflexivity.
      erewrite bind_Some by apply print_dec_loop_spec. reflexivity.
    + reflexivity.
    + erewrite bind_Some by reflexivity.
      erewrite bind_Some by apply print_bin_loop_spec. reflexivity.
    + erewrite bind_Some by reflexivity.
      erewrite bind_Some by apply print_txt_loop_spec. reflexivity.
    + reflexivity.
  - intros b Hb. unfold is_byte in Hb. split.
    + unfold of_digits. cbn [map fold_left].
      rewrite !bit_digit by lia.
      change (2 ^ 0) with 1. rewrite Z.div_1_r.
      change (2 ^ 1) with 2. change (2 ^ 2) with (2 * 2).
      change (2 ^ 3) with (2 * (2 * 2)).
      change (2 ^ 4) with (2 * (2 * (2 * 2))).
      change (2 ^ 5) with (2 * (2 * (2 * (2 * 2)))).
      change (2 ^ 6) with (2 * (2 * (2 * (2 * (2 * 2))))).
      change (2 ^ 7) with (2 * (2 * (2 * (2 * (2 * (2 * 2)))))).
      rewrite <- !Z.div_div by lia.
      pose proof (Z.div_mod b 2 ltac:(lia)).
      pose proof (Z.div_mod (b / 2) 2 ltac:(lia)).
      pose proof (Z.div_mod (b / 2 / 2) 2 ltac:(lia)).
      pose proof (Z.div_mod (b / 2 / 2 / 2) 2 ltac:(lia)).
      pose proof (Z.div_mod (b / 2 / 2 / 2 / 2) 2 ltac:(lia)).
      pose proof (Z.div_mod (b / 2 / 2 / 2 / 2 / 2) 2 ltac:(lia)).
      pose proof (Z.div_mod (b / 2 / 2 / 2 / 2 / 2 / 2) 2 ltac:(lia)).
      pose proof (Z.div_mod (b / 2 / 2 / 2 / 2 / 2 / 2 / 2) 2 ltac:(lia)).
      assert (b / 2 / 2 / 2 / 2 / 2 / 2 / 2 / 2 = 0).
      { rewrite !Z.div_div by lia. apply Z.div_small. lia. }
      lia.
    + cbn [map].
      repeat (apply Forall_cons;
              [ rewrite bit_digit by lia;
                match goal with
                | |- ?x mod 2 = 0 \/ _ =>
                    pose proof (Z.mod_pos_bound x 2 ltac:(lia)); lia
                end |]).
      apply Forall_nil.
Qed.

(** ** Bits of the word in the buffer *)

Lemma testbit_low_high a x i :
  is_byte x -> 0 <= i ->
  Z.testbit (256 * a + x) i
  = if i <? 8 then Z.testbit x i else Z.testbit a (i - 8).
Proof.
  intros Hx Hi. unfold is_byte in Hx.
  destruct (Z.ltb_spec i 8) as [Hlt | Hge].
  - rewrite <- (Z.mod_pow2_bits_low (256 * a + x) 8 i) by lia.
    change (2 ^ 8) with 256.
    rewrite Z.add_comm, Z.mul_comm, Z.mod_add by lia.
    rewrite Z.mod_small by lia. reflexivity.
  - replace i with (i - 8 + 8) at 1 by lia.
    rewrite <- Z.div_pow2_bits by lia. change (2 ^ 8) with 256.
    rewrite Z.add_comm, Z.mul_comm, Z.div_add by lia.
    rewrite Z.div_small by lia. reflexivity.
Qed.

Lemma of_digits_snoc base l x :
  of_digits base (l ++ [x]) = base * of_digits base l + x.
Proof. unfold of_digits. rewrite fold_left_app. reflexivity. Qed.

(** Bit [i] of a number written in bytes, most significant first, is bit
    [i mod 8] of the byte that is [i / 8] places from the end. *)
Lemma testbit_of_digits l :
  Forall is_byte l ->
  forall i, 0 <= i < 8 * Z.of_nat (List.length l) ->
  Z.testbit (of_digits 256 l) i
  = Z.testbit (nth (List.length l - 1 - Z.to_nat (i / 8)) l 0) (i mod 8).
Proof.
  induction l as [|x l IH] using rev_ind; intros Hall i Hi.
  - cbn [List.length] in Hi. lia.
  - apply Forall_app in Hall as [Hl Hx]. inversion Hx as [|? ? Hbx _]; subst.
    rewrite length_app in *. cbn [List.length] in *.
    rewrite of_digits_snoc, testbit_low_high by (assumption || lia).
    destruct (Z.ltb_spec i 8) as [Hlt | Hge].
    + rewrite Z.div_small, Z.mod_small by lia.
      replace (List.length l + 1 - 1 - Z.to_nat 0)%nat with (List.length l) by lia.
      rewrite nth_middle. reflexivity.
    + rewrite IH by (assumption || lia).
      assert (Hdiv : i / 8 = (i - 8) / 8 + 1).
      { replace i with ((i - 8) + 1 * 8) at 1 by lia.
        rewrite Z.div_add by lia. reflexivity. }
      assert (Hmod : i mod 8 = (i - 8) mod 8).
      { replace i with ((i - 8) + 1 * 8) at 1 by lia.
        rewrite Z.mod_add by lia. reflexivity. }
      assert (0 <= (i - 8) / 8 < Z.of_nat (List.length l)).
      { split; [apply Z.div_pos; lia |].
        apply Z.div_lt_upper_bound; lia. }
      rewrite Hdiv, Hmod.
      rewrite app_nth1 by lia. f_equal. f_equal. lia.
Qed.

(** Where the bit index is below the width of the table and the buffer
    holds the bytes of the word, the decoder's bit is the bit of the word. *)
Lemma bit_value_reads_the_word bufferSize count b w :
  0 <= count < 256 ->
  0 <= bitIndex b < 8 * (count / 8) ->
  count / 8 <= bufferSize ->
  Forall is_byte (buffer_bytes (Z.to_nat (count / 8)) w) ->
  bit_value bufferSize ((count / 8 - bitIndex b / 8 - 1) mod 256) (mem w) b
  = Z.testbit (of_digits 256 (buffer_bytes (Z.to_nat (count / 8)) w))
              (bitIndex b).
Proof.
  intros Hcount Hbit Hsize Hbytes.
  assert (Hn : 0 <= count / 8 < 32).
  { split; [apply Z.div_pos; lia | apply Z.div_lt_upper_bound; lia]. }
  assert (Hq : 0 <= bitIndex b / 8 < count / 8).
  { split; [apply Z.div_pos; lia | apply Z.div_lt_upper_bound; lia]. }
  rewrite Z.mod_small by lia.
  unfold bit_value.
  rewrite (proj2 (Z.ltb_lt _ _)) by lia. cbn [andb].
  rewrite testbit_of_digits; [| exact Hbytes |].
  - unfold buffer_bytes. rewrite length_map, length_seq.
    rewrite nth_map_seq by lia. do 2 f_equal. lia.
  - unfold buffer_bytes. rewrite length_map, length_seq. lia.
Qed.

(** X15. When the bit index is below the width of the table (a whole
    number [count / 8] of bytes, at most the buffer length) and the buffer
    holds bytes, the decoder reports bit [bitIndex] of the number that the
    first [count / 8] bytes of the buffer form, most significant byte first. *)
Theorem printBitField_reads_the_word bufferSize count b w :
  0 <= count < 256 ->
  0 <= bitIndex b < 8 * (count / 8) ->
  count / 8 <= bufferSize ->
  Forall is_byte (buffer_bytes (Z.to_nat (count / 8)) w) ->
  printBitField bufferSize count b w
  = Some (tt, w,
          bit_line (Z.testbit
                      (of_digits 256 (buffer_bytes (Z.to_nat (count / 8)) w))
                      (bitIndex b)) b).
Proof.
  intros Hcount Hbit Hsize Hbytes.
  rewrite printBitField_spec.
  rewrite bit_value_reads_the_word by assumption. reflexivity.
Qed.

Lemma printBitField_reads_the_word_witness :
  exists ev,
    printBitField 30 32 (bit 9 "ASCCL" "Short-Circuit During Charge Latch"
                             "Detected" "Not Detected")
      (mkWorld 0 0 [] []
               (fun i => if i =? 2 then 0x02 else 0) (fun _ => 0) [])
    = Some (tt,
            mkWorld 0 0 [] []
               (fun i => if i =? 2 then 0x02 else 0) (fun _ => 0) [],
            ev) /\
    In (Text "1 = ") ev.
Proof.
  eexists. split.
  - apply printBitField_reads_the_word.
    + lia.
    + vm_compute. split; [discriminate | reflexivity].
    + vm_compute. discriminate.
    + repeat constructor; vm_compute; discriminate.
  - vm_compute. tauto.
Defined.

Lemma catalogue_schemas_fit : forallb schema_fits MBACommandsInfo = true.
Proof. vm_compute. reflexivity. Qed.

(** X16. Every table of the catalogue fits the 30 bytes that the runner
    hands to the decoder and has its bit indices below its declared width;
    so for every entry with a table, [printBitFields] called as the runner
    calls it reports, for each bit of the table in order, that bit of the
    number formed by the first [bitfieldCount / 8] bytes of the buffer, most
    significant byte first, and leaves the world as it is. *)
Theorem runner_decoding_reads_the_word c table w :
  In c MBACommandsInfo ->
  bitfields c = Some table ->
  Forall is_byte (buffer_bytes (Z.to_nat (bitfieldCount c / 8)) w) ->
  bitfieldCount c / 8 <= SOFTWAREWIRE_BUFSIZE - 2 /\
  Forall (fun b => 0 <= bitIndex b < bitfieldCount c) table /\
  printBitFields (SOFTWAREWIRE_BUFSIZE - 2) table (bitfieldCount c) w
  = Some (tt, w,
          flat_map
            (fun b =>
               bit_line (Z.testbit
                           (of_digits 256
                              (buffer_bytes (Z.to_nat (bitfieldCount c / 8)) w))
                           (bitIndex b)) b)
            table).
Proof.
  intros Hin Htable Hbytes.
  pose proof catalogue_schemas_fit as Hfit.
  rewrite forallb_forall in Hfit. specialize (Hfit c Hin).
  unfold schema_fits in Hfit. rewrite Htable in Hfit.
  apply andb_prop in Hfit as [Hfit Hbits].
  apply andb_prop in Hfit as [Hfit Hlength].
  apply andb_prop in Hfit as [Hfit Hwindow].
  apply andb_prop in Hfit as [Hfit Hwhole].
  apply andb_prop in Hfit as [Hpos Hsmall].
  apply Z.ltb_lt in Hpos, Hsmall. apply Z.leb_le in Hwindow.
  apply Z.eqb_eq in Hwhole. apply Nat.eqb_eq in Hlength.
  assert (Hidx : Forall (fun b => 0 <= bitIndex b < bitfieldCount c) table).
  { apply Forall_forall. intros b Hb.
    rewrite forallb_forall in Hbits. apply Hbits in Hb.
    apply andb_prop in Hb as [Hlo Hhi].
    apply Z.leb_le in Hlo. apply Z.ltb_lt in Hhi. lia. }
  split; [lia | split; [exact Hidx |]].
  unfold printBitFields.
  rewrite printBitFields_loop_spec by lia.
  cbn [skipn]. rewrite firstn_all2 by lia.
  do 2 f_equal.
  rewrite !flat_map_concat_map. f_equal.
  apply map_ext_in. intros b Hb.
  rewrite Forall_forall in Hidx. specialize (Hidx b Hb).
  rewrite bit_value_reads_the_word; [reflexivity | lia | lia | lia | exact Hbytes].
Qed.

Lemma runner_decoding_reads_the_word_witness :
  printBitFields 30 ManufacturingStatusBits 16
    (mkWorld 0 0 [] [] (fun i => if i =? 1 then 0x02 else 0) (fun _ => 0) [])
  = Some (tt,
          mkWorld 0 0 [] [] (fun i => if i =? 1 then 0x02 else 0)
                  (fun _ => 0) [],
          flat_map
            (fun b => bit_line (Z.testbit 0x0002 (bitIndex b)) b)
            ManufacturingStatusBits).
Proof.
  destruct (runner_decoding_reads_the_word (catalogue_entry 14)
              ManufacturingStatusBits
              (mkWorld 0 0 [] [] (fun i => if i =? 1 then 0x02 else 0)
                       (fun _ => 0) []))
    as (_ & _ & H).
  - do 14 right. left. reflexivity.
  - reflexivity.
  - repeat constructor; vm_compute; discriminate.
  - exact H.
Defined.

